(** * Auklet agent: the delivery-and-recovery core of [auklet/base.py]

    A shallow embedding of [Client] (bootstrap, [produce], the local spool
    and its replay) and of [get_commit_hash], followed by the properties of
    the specification that concern them.

    Conventions of the embedding.
    - Text and bytes are both [string] (one [ascii] per character or byte).
    - The collaborators the module imports ([json], [urlopen], [zipfile],
      [KafkaProducer], the operating system) are parameters: the two [json]
      functions are section variables, the rest are fields of [Host] and the
      two fault oracles of the delivery section.
    - A Python call either returns, raises, or exhausts the interpreter's
      call stack; the three cases are the constructors of [Outcome]. *)

From stdpp Require Import gmap strings list.
From Stdlib Require Import Ascii ZArith Lia.

Set Warnings "-register-all".

(** ** Python values *)

(** What [json.loads] can return and [json.dumps] accepts. *)
Inductive Json : Type :=
| JNull
| JBool (b : bool)
| JInt (z : Z)
| JStr (s : string)
| JList (l : list Json)
| JDict (items : list (string * Json)).

(** [obj.keys()]: only a dict has the method. *)
Definition keys (obj : Json) : option (list string) :=
  match obj with
  | JDict items => Some (map fst items)
  | _ => None
  end.

(** [key in ks] for a list of strings. *)
Definition contains (key : string) (ks : list string) : bool :=
  existsb (String.eqb key) ks.

(** What [get_commit_hash] can return: a string, or a tuple. *)
Inductive pyobj : Type :=
| PStr (s : string)
| PTuple (items : list pyobj).

(** The value a method of [Client] hands back: [None] (falling off the end)
    or the literal [False]. *)
Inductive pyret : Type := PyNone | PyFalse.

(** The exception classes the module meets. *)
Inductive exn : Type :=
| KafkaError | IOError | OSError | HTTPError | URLError
| ValueError | KeyError | TypeError | AttributeError | BadZipfile.

(** ** Text helpers *)

Definition LF : ascii := "010"%char.
Definition CR : ascii := "013"%char.

(** The one-character string ["\n"]. *)
Definition nl : string := String LF "".

(** The line boundaries of [str.splitlines] among the 8-bit characters:
    LF, VT, FF, CR, FS, GS, RS and NEL. *)
Definition is_linebreak (c : ascii) : bool :=
  let n := nat_of_ascii c in
  (n =? 10) || (n =? 11) || (n =? 12) || (n =? 13)
  || (n =? 28) || (n =? 29) || (n =? 30) || (n =? 133).

(** [s.splitlines()]: the lines without their terminators; a terminator at
    the very end opens no further line, and CR LF counts once. *)
Fixpoint splitlines (s : string) : list string :=
  match s with
  | EmptyString => []
  | String c rest =>
      if is_linebreak c then
        match rest with
        | String d rest' =>
            if Ascii.eqb c CR && Ascii.eqb d LF
            then "" :: splitlines rest'
            else "" :: splitlines rest
        | EmptyString => [""]
        end
      else
        match splitlines rest with
        | [] => [String c ""]
        | line :: lines => String c line :: lines
        end
  end.

(** [n] zero bytes. *)
Fixpoint zeros (n : nat) : string :=
  match n with
  | 0 => ""
  | S n' => String zero (zeros n')
  end.

(** The content of a file after [truncate(size)]: the first [size]
    characters, padded with zero bytes when the file was shorter. *)
Definition resize (size : nat) (content : string) : string :=
  String.substring 0 size content +:+ zeros (size - String.length content).

(** ** The client object *)

(** The keyword arguments [__init__] passes to [KafkaProducer]. *)
Record KafkaProducer : Type := {
  bootstrap_servers : Json;
  ssl_cafile : string;
  ssl_certfile : string;
  ssl_keyfile : string;
  security_protocol : string;
  ssl_check_hostname : bool
}.

Record Client : Type := {
  apikey : string;
  app_id : string;
  base_url : string;
  send_enabled : bool;
  producer : option KafkaProducer;
  brokers : Json;
  producer_types : gmap string Json;
  mac_hash : string;
  commit_hash : pyobj;
  abs_path : pyobj
}.

Definition offline_fliename : string := "tmp/local.txt".

(** ** The world [produce] acts on *)

(** One call of [producer.send]: the topic, the value, and whether the call
    returned ([true]) or raised [KafkaError] ([false]). *)
Record Send : Type := {
  s_topic : Json;
  s_value : Json;
  s_ok : bool
}.

Record World : Type := {
  (** content of [tmp/local.txt]; [None] while the file does not exist *)
  spool : option string;
  (** every call of [producer.send] so far, oldest first *)
  calls : list Send;
  (** how many times the spool was opened for appending so far *)
  appends : nat
}.

(** How an append to the spool fails: [open] raises [IOError]; or a
    [write], or the flush when the file is closed, raises it after the
    first [reached] characters of the line went to the file (a disk that
    is full). *)
Inductive Fault : Type :=
| AtOpen
| AtWrite (reached : nat).

Definition set_spool (o : option string) (w : World) : World :=
  {| spool := o; calls := calls w; appends := appends w |}.

(** The text of the spool, the empty text for a missing file. *)
Definition text (o : option string) : string := default "" o.

(** How a call ends, and the world it leaves: it returns [a], it raises
    [e], or it runs out of call stack ([RecursionError], which none of the
    handlers of the module catches). *)
Inductive Outcome (A : Type) : Type :=
| Ret (a : A) (w : World)
| Raise (e : exn) (w : World)
| Overflow (w : World).

Arguments Ret {A} a w.
Arguments Raise {A} e w.
Arguments Overflow {A} w.

Definition world_of {A} (o : Outcome A) : World :=
  match o with
  | Ret _ w | Raise _ w | Overflow w => w
  end.

Definition returns {A} (o : Outcome A) : bool :=
  match o with
  | Ret _ _ => true
  | _ => false
  end.

Section Delivery.

(** [json.dumps] and [json.loads] ([None]: the text is not JSON and
    [ValueError] is raised). *)
Variable dumps : Json -> string.
Variable loads : string -> option Json.

(** The faults of the outside world: whether the [n]-th call of
    [producer.send] raises [KafkaError], and whether and how the [n]-th
    append to the spool raises [IOError] ([None]: it does not). *)
Variable send_raises : nat -> bool.
Variable append_fails : nat -> option Fault.

(** [self.producer.send(topic, value=data)] *)
Definition send (topic data : Json) (w : World) : bool * World :=
  let ok := negb (send_raises (length (calls w))) in
  (ok, {| spool := spool w;
          calls := calls w ++ [{| s_topic := topic; s_value := data; s_ok := ok |}];
          appends := appends w |}).

(** [Client._write_to_local].  Opening with ["a"] creates the file when it
    is missing; the two writes put the serialised record and a line feed
    at the end of the file.  An [IOError] of [open] leaves the file as it
    was; an [IOError] of a [write], or of the flush made when the [with]
    block closes the file, leaves the leading part of the line that had
    reached the file.  The method returns [False] from its handler and
    [None] otherwise. *)
Definition _write_to_local (data : Json) (w : World) : pyret * World :=
  let line := dumps data +:+ nl in
  match append_fails (appends w) with
  | None =>
      (PyNone, {| spool := Some (text (spool w) +:+ line);
                  calls := calls w;
                  appends := S (appends w) |})
  | Some AtOpen =>
      (PyFalse, {| spool := spool w; calls := calls w; appends := S (appends w) |})
  | Some (AtWrite reached) =>
      (PyFalse, {| spool := Some (text (spool w) +:+ String.substring 0 reached line);
                   calls := calls w;
                   appends := S (appends w) |})
  end.

(** The [for line in lines] loop of [_produce_from_local]; [produce] is
    [self.produce]. *)
Fixpoint replay_lines (produce : Json -> string -> World -> Outcome pyret)
         (lines : list string) (w : World) : Outcome unit :=
  match lines with
  | [] => Ret tt w
  | line :: rest =>
      match loads line with
      | None => Raise ValueError w
      | Some loaded =>
          match keys loaded with
          | None => Raise AttributeError w
          | Some ks =>
              let sent :=
                if contains "stackTrace" ks
                then produce loaded "event" w
                else produce loaded "monitoring" w in
              match sent with
              | Ret _ w1 => replay_lines produce rest w1
              | Raise e w1 => Raise e w1
              | Overflow w1 => Overflow w1
              end
          end
      end
  end.

(** [Client._produce_from_local].  The file is opened with ['r+'], which
    raises [IOError] when it does not exist; [read()] leaves the position
    at the end of what was read, and [truncate()] without an argument cuts
    the file at that position.  A missing file is the one failure of the
    open that is modelled: the process is taken to have a file descriptor
    to spare for every pass the call stack has room for. *)
Definition _produce_from_local (produce : Json -> string -> World -> Outcome pyret)
           (w : World) : Outcome pyret :=
  match spool w with
  | None => Ret PyFalse w
  | Some content =>
      let position := String.length content in
      match replay_lines produce (splitlines content) w with
      | Ret _ w1 => Ret PyNone (set_spool (resize position <$> spool w1) w1)
      | Raise IOError w1 => Ret PyFalse w1
      | Raise e w1 => Raise e w1
      | Overflow w1 => Overflow w1
      end
  end.

(** [Client.produce].  [fuel] is the number of nested replay passes the
    call stack still has room for. *)
Fixpoint produce (fuel : nat) (self : Client) (data : Json) (data_type : string)
         (w : World) : Outcome pyret :=
  match producer self with
  | None => Ret PyNone w
  | Some _ =>
      match producer_types self !! data_type with
      | None => Raise KeyError w
      | Some topic =>
          let (ok, w1) := send topic data w in
          if ok then
            match fuel with
            | 0 => Overflow w1
            | S fuel' =>
                match _produce_from_local (produce fuel' self) w1 with
                | Ret _ w2 => Ret PyNone w2
                | Raise KafkaError w2 => Ret PyNone (snd (_write_to_local data w2))
                | Raise e w2 => Raise e w2
                | Overflow w2 => Overflow w2
                end
            end
          else Ret PyNone (snd (_write_to_local data w1))
      end
  end.

End Delivery.

(** ** Bootstrap *)

(** The local disk as [__init__] sees it: the directories that exist and the
    files with their content, each under the name [realpath] gives it (two
    paths may name one file).  The content of a file is what it holds
    once the file objects opened on it have been released. *)
Record Disk : Type := {
  dirs : gset string;
  files : gmap string string
}.

Inductive Result (A : Type) : Type :=
| Ok (a : A) (d : Disk)
| Err (e : exn) (d : Disk).

Arguments Ok {A} a d.
Arguments Err {A} e d.

(** What [urlopen] is given: a [Request] with its Authorization header, or
    a bare URL (no header). *)
Record Request : Type := {
  url : string;
  authorization : option string
}.

(** What [urlopen] does: it returns a response whose [read()] is [data], or
    raises [HTTPError] whose [geturl()] is [location], or raises
    [URLError]. *)
Inductive Response : Type :=
| Body (data : string)
| HTTPErrorAt (location : string)
| URLErrorRaised.

(** What [os.makedirs] does: it creates the directory and those above it
    that are missing; or it raises [OSError] with [errno.EEXIST] at the
    directory itself, those above it being there by then; or it raises
    [OSError] with another code, having made the outermost [made] of the
    directories above. *)
Inductive Makedirs : Type := Made | Exists | Failed (made : nat).

(** How [open(filename, "wb")] and [f.write(data)] go, for a file object
    that is never flushed or closed by the program: the bytes reach the
    file; or [open] raises [IOError]; or [write] raises [IOError] after
    [reached] bytes went to the file; or [write] returns and the flush made
    when the file object is released fails after [reached] bytes, which
    nothing reports. *)
Inductive Wb : Type :=
| Whole
| CannotOpen
| WriteRaises (reached : nat)
| Cut (reached : nat).

Record Host : Type := {
  urlopen : Request -> Response;
  (** [zipfile.ZipFile(io.BytesIO(data))]: the entries in archive order,
      name and content; [None] when [data] is no zip archive *)
  ZipFile : string -> option (list (string * string));
  makedirs : string -> Makedirs;
  (** the file or directory a path names, as [os.path.realpath] gives it:
      paths with the same [realpath] are one file *)
  realpath : string -> string;
  (** how writing the file at a path goes *)
  wb : string -> Wb;
  (** what the file at a path holds when file objects were opened on it
      for writing before and were left unclosed, having been given the
      bytes [earlier], and a further one is opened on it and given [data]:
      how the bytes mix is a matter of the buffers of the interpreter and
      of when it releases the file objects *)
  aliased : string -> list string -> string -> string;
  (** content of [.auklet/version]; [None] when opening or reading it
      raises [IOError] *)
  version_file : option string;
  (** [os.path.abspath] *)
  abspath : string -> string;
  (** whether constructing [KafkaProducer] with these keyword arguments
      raises [KafkaError] *)
  broker_down : KafkaProducer -> bool
}.

Definition slash : ascii := "/"%char.

(** The part of [p] up to and including its last slash; [None] without a
    slash. *)
Fixpoint head_slash (p : string) : option string :=
  match p with
  | EmptyString => None
  | String c rest =>
      match head_slash rest with
      | Some h => Some (String c h)
      | None => if Ascii.eqb c slash then Some (String c EmptyString) else None
      end
  end.

Fixpoint all_slashes (s : string) : bool :=
  match s with
  | EmptyString => true
  | String c rest => Ascii.eqb c slash && all_slashes rest
  end.

(** [s.rstrip('/')] *)
Fixpoint rstrip_slash (s : string) : string :=
  match s with
  | EmptyString => EmptyString
  | String c rest =>
      match rstrip_slash rest with
      | EmptyString => if Ascii.eqb c slash then EmptyString else String c EmptyString
      | rest' => String c rest'
      end
  end.

(** [os.path.dirname] (posixpath) *)
Definition dirname (p : string) : string :=
  let head := default EmptyString (head_slash p) in
  if all_slashes head then head else rstrip_slash head.

(** [os.path.exists] *)
Definition path_exists (h : Host) (p : string) (d : Disk) : bool :=
  bool_decide (realpath h p ∈ dirs d) || bool_decide (is_Some (files d !! realpath h p)).

(** The directory [p] and the directories above it, [fuel] levels at most. *)
Fixpoint ancestors (fuel : nat) (p : string) : list string :=
  match fuel with
  | 0 => []
  | S fuel' =>
      if all_slashes p then [] else p :: ancestors fuel' (dirname p)
  end.

(** The directories [os.makedirs(p)] has to make when none is there, the
    outermost first. *)
Definition to_make (p : string) : list string :=
  reverse (ancestors (String.length p) p).

(** The disk once the directories at the paths [ps] are there. *)
Definition add_dirs (h : Host) (ps : list string) (d : Disk) : Disk :=
  {| dirs := list_to_set (realpath h <$> ps) ∪ dirs d;
     files := files d |}.

(** The disk once [file] holds [content]. *)
Definition write_file (file content : string) (d : Disk) : Disk :=
  {| dirs := dirs d; files := <[file := content]> (files d) |}.

(** [s.split(sep)[0]] for a separator that is not empty *)
Fixpoint split_first (sep s : string) : string :=
  match s with
  | EmptyString => EmptyString
  | String c rest =>
      if String.prefix sep s then EmptyString else String c (split_first sep rest)
  end.

(** [d[key]] on what [json.loads] returned: the last pair with that key is
    the one the dict kept. *)
Fixpoint dict_get {A} (key : string) (items : list (string * A)) : option A :=
  match items with
  | [] => None
  | (k, v) :: rest =>
      match dict_get key rest with
      | Some v' => Some v'
      | None => if String.eqb k key then Some v else None
      end
  end.

Definition getitem (obj : Json) (key : string) : exn + Json :=
  match obj with
  | JDict items =>
      match dict_get key items with
      | Some v => inr v
      | None => inl KeyError
      end
  | _ => inl TypeError
  end.

(** [a, b = obj] *)
Definition unpack2 (obj : pyobj) : option (pyobj * pyobj) :=
  match obj with
  | PTuple [a; b] => Some (a, b)
  | PStr (String a (String b EmptyString)) =>
      Some (PStr (String a EmptyString), PStr (String b EmptyString))
  | _ => None
  end.

(** [get_abs_path] *)
Definition get_abs_path (h : Host) (path : string) : string :=
  split_first ".auklet" (abspath h path).

(** [get_commit_hash] *)
Definition get_commit_hash (h : Host) : pyobj :=
  match version_file h with
  | Some content =>
      PTuple [PStr content; PStr (get_abs_path h ".auklet/version")]
  | None => PStr EmptyString
  end.

Section Bootstrap.

Variable loads : string -> option Json.
Variable h : Host.

(** [Client._create_file].  An [OSError] with [errno.EEXIST] is passed
    over, whether or not a directory is there in the end (the name may be
    that of a link to nothing); any other is raised again. *)
Definition _create_file (filename : string) (d : Disk) : Result bool :=
  let dir := dirname filename in
  if path_exists h dir d then Ok true d
  else
    match makedirs h dir with
    | Made => Ok true (add_dirs h (to_make dir) d)
    | Exists => Ok true (add_dirs h (to_make (dirname dir)) d)
    | Failed made => Err OSError (add_dirs h (take made (to_make (dirname dir))) d)
    end.

(** [Client._build_url] *)
Definition _build_url (self : Client) (extension : string) : string :=
  base_url self +:+ extension.

Definition with_auth (self : Client) (extension : string) : Request :=
  {| url := _build_url self extension;
     authorization := Some ("JWT " +:+ apikey self) |}.

Definition set_brokers (b : Json) (types : gmap string Json) (self : Client) : Client :=
  {| apikey := apikey self; app_id := app_id self; base_url := base_url self;
     send_enabled := send_enabled self; producer := producer self;
     brokers := b; producer_types := types;
     mac_hash := mac_hash self; commit_hash := commit_hash self;
     abs_path := abs_path self |}.

(** [Client._get_kafka_brokers] *)
Definition _get_kafka_brokers (self : Client) : exn + Client :=
  match urlopen h (with_auth self "private/devices/config/") with
  | HTTPErrorAt _ => inl HTTPError
  | URLErrorRaised => inl URLError
  | Body data =>
      match loads data with
      | None => inl ValueError
      | Some kafka_info =>
          match getitem kafka_info "brokers" with
          | inl e => inl e
          | inr b =>
              match getitem kafka_info "prof_topic" with
              | inl e => inl e
              | inr prof =>
                  match getitem kafka_info "event_topic" with
                  | inl e => inl e
                  | inr event =>
                      match getitem kafka_info "log_topic" with
                      | inl e => inl e
                      | inr log =>
                          inr (set_brokers b
                                 (<["monitoring" := prof]>
                                    (<["event" := event]>
                                       (<["log" := log]> ∅)))
                                 self)
                      end
                  end
              end
          end
      end
  end.

(** The path [_get_kafka_certs] writes an archive entry to. *)
Definition cert_path (entry_name : string) : string :=
  "tmp/" +:+ entry_name +:+ ".pem".

(** The bytes given to the file objects of [opened] that are on [file]. *)
Definition earlier (opened : list (string * string)) (file : string) : list string :=
  snd <$> filter (fun o => String.eqb (fst o) file = true) opened.

(** What the file [file], just opened at [filename] for writing (which
    empties it), holds once it was given [data]: [opened] are the file
    objects the method left unclosed so far, each with the file it is on
    and the bytes it was given.  When one of them is on the same file, its
    bytes and [data] mix as the host has it. *)
Definition settled (opened : list (string * string)) (filename file data : string)
  : string :=
  match earlier opened file with
  | [] => data
  | held => aliased h filename held data
  end.

(** The [for temp_file in mlz.filelist] loop of [_get_kafka_certs];
    [mlz.open(name).read()] is [dict_get name mlz] ([KeyError] when the
    archive has no such member).  No file object is flushed or closed:
    each is released when the interpreter sees fit (CPython: when [f] is
    bound to the next, and when the method ends); [opened] lists those of
    the entries before. *)
Fixpoint write_entries (mlz filelist : list (string * string))
         (opened : list (string * string)) (d : Disk) : Result bool :=
  match filelist with
  | [] => Ok true d
  | temp_file :: rest =>
      let filename := cert_path (fst temp_file) in
      match _create_file filename d with
      | Err e d1 => Err e d1
      | Ok _ d1 =>
          let file := realpath h filename in
          match wb h filename with
          | CannotOpen => Err IOError d1
          | how =>
              match dict_get (fst temp_file) mlz with
              | None =>
                  Err KeyError
                      (write_file file (settled opened filename file EmptyString) d1)
              | Some content =>
                  match how with
                  | WriteRaises reached =>
                      Err IOError
                          (write_file file
                             (settled opened filename file
                                (String.substring 0 reached content))
                             d1)
                  | Cut reached =>
                      write_entries mlz rest (opened ++ [(file, content)])
                        (write_file file
                           (settled opened filename file
                              (String.substring 0 reached content))
                           d1)
                  | _ =>
                      write_entries mlz rest (opened ++ [(file, content)])
                        (write_file file (settled opened filename file content) d1)
                  end
              end
          end
      end
  end.

(** [Client._get_kafka_certs] *)
Definition _get_kafka_certs (self : Client) (d : Disk) : Result bool :=
  let fetched :=
    match urlopen h (with_auth self "private/devices/certificates/") with
    | HTTPErrorAt location =>
        urlopen h {| url := location; authorization := None |}
    | res => res
    end in
  match fetched with
  | HTTPErrorAt _ => Err HTTPError d
  | URLErrorRaised => Err URLError d
  | Body data =>
      match ZipFile h data with
      | None => Err BadZipfile d
      | Some mlz => write_entries mlz mlz [] d
      end
  end.

Definition set_producer (p : option KafkaProducer) (self : Client) : Client :=
  {| apikey := apikey self; app_id := app_id self; base_url := base_url self;
     send_enabled := send_enabled self; producer := p;
     brokers := brokers self; producer_types := producer_types self;
     mac_hash := mac_hash self; commit_hash := commit_hash self;
     abs_path := abs_path self |}.

Definition set_identity (mac : string) (commit path : pyobj) (self : Client) : Client :=
  {| apikey := apikey self; app_id := app_id self; base_url := base_url self;
     send_enabled := send_enabled self; producer := producer self;
     brokers := brokers self; producer_types := producer_types self;
     mac_hash := mac; commit_hash := commit; abs_path := path |}.

(** The keyword arguments of the [KafkaProducer] call in [__init__]. *)
Definition producer_config (self : Client) : KafkaProducer :=
  {| bootstrap_servers := brokers self;
     ssl_cafile := "tmp/ck_ca.pem";
     ssl_certfile := "tmp/ck_cert.pem";
     ssl_keyfile := "tmp/ck_private_key.pem";
     security_protocol := "SSL";
     ssl_check_hostname := false |}.

(** The object [__init__] starts from: its first four assignments are
    made; the attributes the class body leaves at [None], which nothing
    reads before they are assigned, hold a null value. *)
Definition new_client (apikey app_id base_url : string) : Client :=
  {| apikey := apikey; app_id := app_id; base_url := base_url;
     send_enabled := true; producer := None;
     brokers := JNull; producer_types := ∅;
     mac_hash := EmptyString; commit_hash := PStr EmptyString;
     abs_path := PStr EmptyString |}.

(** [Client.__init__] *)
Definition __init__ (apikey app_id base_url mac_hash : string) (d : Disk)
  : Result Client :=
  let self := new_client apikey app_id base_url in
  match _get_kafka_brokers self with
  | inl e => Err e d
  | inr self =>
      match _create_file offline_fliename d with
      | Err e d1 => Err e d1
      | Ok _ d1 =>
          match unpack2 (get_commit_hash h) with
          | None => Err ValueError d1
          | Some (commit, path) =>
              let self := set_identity mac_hash commit path self in
              match _get_kafka_certs self d1 with
              | Err e d2 => Err e d2
              | Ok certs d2 =>
                  if certs then
                    if broker_down h (producer_config self)
                    then Ok self d2
                    else Ok (set_producer (Some (producer_config self)) self) d2
                  else Ok self d2
              end
          end
      end
  end.

End Bootstrap.

(** ** A small json for the examples

    The properties below hold for every [dumps] and [loads]; the concrete
    runs need one.  This one covers [null], [true], [false], integers,
    strings of printable characters, lists and dicts, written with the
    separators [json.dumps] uses. *)

Module MiniJson.

Definition dq : ascii := "034"%char.
Definition backslash : ascii := "092"%char.

Fixpoint digits (fuel : nat) (n : N) (acc : string) : string :=
  match fuel with
  | 0 => acc
  | S fuel' =>
      let acc' := String (ascii_of_N (48 + n mod 10)) acc in
      if (n <? 10)%N then acc' else digits fuel' (n / 10)%N acc'
  end.

Definition dump_int (z : Z) : string :=
  let n := Z.to_N (Z.abs z) in
  let body := digits (S (N.to_nat (N.log2 n))) n EmptyString in
  if (z <? 0)%Z then String "-" body else body.

Fixpoint escape (s : string) : string :=
  match s with
  | EmptyString => EmptyString
  | String c rest =>
      if Ascii.eqb c dq || Ascii.eqb c backslash
      then String backslash (String c (escape rest))
      else String c (escape rest)
  end.

Definition quote (s : string) : string :=
  String dq (escape s +:+ String dq EmptyString).

Fixpoint dumps (v : Json) : string :=
  match v with
  | JNull => "null"
  | JBool true => "true"
  | JBool false => "false"
  | JInt z => dump_int z
  | JStr s => quote s
  | JList l =>
      "[" +:+
      (fix elements (l : list Json) : string :=
         match l with
         | [] => EmptyString
         | [x] => dumps x
         | x :: rest => dumps x +:+ ", " +:+ elements rest
         end) l +:+ "]"
  | JDict items =>
      "{" +:+
      (fix members (items : list (string * Json)) : string :=
         match items with
         | [] => EmptyString
         | [(k, x)] => quote k +:+ ": " +:+ dumps x
         | (k, x) :: rest => quote k +:+ ": " +:+ dumps x +:+ ", " +:+ members rest
         end) items +:+ "}"
  end.

Definition is_space (c : ascii) : bool :=
  Ascii.eqb c " " || Ascii.eqb c LF || Ascii.eqb c CR || Ascii.eqb c "009".

Fixpoint skip_ws (s : string) : string :=
  match s with
  | String c rest => if is_space c then skip_ws rest else s
  | EmptyString => s
  end.

(** The characters of a string literal after its opening quote. *)
Fixpoint chars (s : string) : option (string * string) :=
  match s with
  | EmptyString => None
  | String c rest =>
      if Ascii.eqb c dq then Some (EmptyString, rest)
      else if Ascii.eqb c backslash then
        match rest with
        | String d rest' =>
            if Ascii.eqb d dq || Ascii.eqb d backslash then
              match chars rest' with
              | Some (body, after) => Some (String d body, after)
              | None => None
              end
            else None
        | EmptyString => None
        end
      else
        match chars rest with
        | Some (body, after) => Some (String c body, after)
        | None => None
        end
  end.

Definition is_digit (c : ascii) : bool :=
  (48 <=? nat_of_ascii c) && (nat_of_ascii c <=? 57).

Fixpoint number (acc : N) (s : string) : N * string :=
  match s with
  | String c rest =>
      if is_digit c
      then number (10 * acc + (N_of_ascii c - 48))%N rest
      else (acc, s)
  | EmptyString => (acc, s)
  end.

Fixpoint value (fuel : nat) (s : string) : option (Json * string) :=
  match fuel with
  | 0 => None
  | S fuel' =>
      match skip_ws s with
      | String "n" (String "u" (String "l" (String "l" rest))) => Some (JNull, rest)
      | String "t" (String "r" (String "u" (String "e" rest))) => Some (JBool true, rest)
      | String "f" (String "a" (String "l" (String "s" (String "e" rest)))) =>
          Some (JBool false, rest)
      | String "[" rest =>
          match skip_ws rest with
          | String "]" after => Some (JList [], after)
          | _ =>
              match elements fuel' rest with
              | Some (l, after) => Some (JList l, after)
              | None => None
              end
          end
      | String "{" rest =>
          match skip_ws rest with
          | String "}" after => Some (JDict [], after)
          | _ =>
              match members fuel' rest with
              | Some (items, after) => Some (JDict items, after)
              | None => None
              end
          end
      | String "-" (String c rest) =>
          if is_digit c then
            let (n, after) := number 0 (String c rest) in
            Some (JInt (- Z.of_N n), after)
          else None
      | String c rest =>
          if Ascii.eqb c dq then
            match chars rest with
            | Some (body, after) => Some (JStr body, after)
            | None => None
            end
          else if is_digit c then
            let (n, after) := number 0 (String c rest) in
            Some (JInt (Z.of_N n), after)
          else None
      | EmptyString => None
      end
  end
with elements (fuel : nat) (s : string) : option (list Json * string) :=
  match fuel with
  | 0 => None
  | S fuel' =>
      match value fuel' s with
      | Some (v, after) =>
          match skip_ws after with
          | String "," more =>
              match elements fuel' more with
              | Some (l, rest) => Some (v :: l, rest)
              | None => None
              end
          | String "]" rest => Some ([v], rest)
          | _ => None
          end
      | None => None
      end
  end
with members (fuel : nat) (s : string) : option (list (string * Json) * string) :=
  match fuel with
  | 0 => None
  | S fuel' =>
      match skip_ws s with
      | String c rest =>
          if Ascii.eqb c dq then
            match chars rest with
            | Some (k, after) =>
                match skip_ws after with
                | String ":" more =>
                    match value fuel' more with
                    | Some (v, after') =>
                        match skip_ws after' with
                        | String "," more' =>
                            match members fuel' more' with
                            | Some (items, rest') => Some ((k, v) :: items, rest')
                            | None => None
                            end
                        | String "}" rest' => Some ([(k, v)], rest')
                        | _ => None
                        end
                    | None => None
                    end
                | _ => None
                end
            | None => None
            end
          else None
      | EmptyString => None
      end
  end.

Definition loads (s : string) : option Json :=
  match value (S (String.length s)) s with
  | Some (v, rest) =>
      match skip_ws rest with
      | EmptyString => Some v
      | _ => None
      end
  | None => None
  end.

End MiniJson.

(** ** Record enrichment *)

(** [d[key] = value] on a dict held as its items (each key once): the
    value is replaced where the key is bound, and the pair is added last
    where it is not. *)
Definition dict_set (key : string) (value : Json) (items : list (string * Json))
  : list (string * Json) :=
  if contains key (map fst items)
  then map (fun kv => if String.eqb (fst kv) key then (fst kv, value) else kv) items
  else items ++ [(key, value)].

(** A string or tuple attribute of the client as a value of a record. *)
Fixpoint as_json (o : pyobj) : Json :=
  match o with
  | PStr s => JStr s
  | PTuple items => JList (map as_json items)
  end.

Section Enrichment.

(** The type of the raw event data ([type], [traceback], [tree]). *)
Context {Arg : Type}.

(** [dict(Event(type, traceback, tree, abs_path))] and
    [dict(SystemMetrics())], both of [auklet.stats]; [get_ip()] of [ipify]
    ([None]: it raises [IpifyException]); [str(uuid4())] and
    [str(datetime.utcnow())]. *)
Variable Event : Arg -> Arg -> Arg -> pyobj -> list (string * Json).
Variable SystemMetrics : list (string * Json).
Variable get_ip : option string.
Variable uuid4 : string.
Variable utcnow : string.

(** [get_device_ip]: the address, or [None] when the lookup raises. *)
Definition get_device_ip : Json :=
  match get_ip with
  | Some ip => JStr ip
  | None => JNull
  end.

(** [Client.build_event_data] *)
Definition build_event_data (self : Client) (type traceback tree : Arg)
  : list (string * Json) :=
  let event_dict := Event type traceback tree (abs_path self) in
  let event_dict := dict_set "application" (JStr (app_id self)) event_dict in
  let event_dict := dict_set "publicIP" get_device_ip event_dict in
  let event_dict := dict_set "id" (JStr uuid4) event_dict in
  let event_dict := dict_set "timestamp" (JStr utcnow) event_dict in
  let event_dict := dict_set "systemMetrics" (JDict SystemMetrics) event_dict in
  let event_dict := dict_set "macAddressHash" (JStr (mac_hash self)) event_dict in
  let event_dict := dict_set "commitHash" (as_json (commit_hash self)) event_dict in
  event_dict.

End Enrichment.

(** ** The start and stop lifecycle *)

Module Runnable.

(** What the class raises, with the message where it gives one, and what
    the generator of [run] may raise. *)
Inductive exn : Type :=
| RuntimeError (msg : string)
| TypeError (msg : string)
| NotImplementedError (msg : string)
| Exception (name : string).

(** A generator object, by what [next] does to it: it yields a value
    ([JNull], that is [None], for a bare [yield]) and goes on, or it
    returns, or it raises. *)
Inductive Generator : Type :=
| Yield (value : Json) (rest : Generator)
| Return
| Raise (e : exn).

Inductive Next : Type :=
| Yielded (value : Json)
| StopIteration
| Raised (e : exn).

(** [next(g)], with the generator as it is afterwards: a generator that
    returned or raised is finished. *)
Definition next (g : Generator) : Next * Generator :=
  match g with
  | Yield value rest => (Yielded value, rest)
  | Return => (StopIteration, Return)
  | Raise e => (Raised e, Return)
  end.

(** The instance: its attribute [_running]. *)
Definition t : Type := option Generator.

(** [Runnable.is_running] *)
Definition is_running (self : t) : bool :=
  match self with
  | Some _ => true
  | None => false
  end.

(** What the call of [self.run] with the arguments of [start] does.  [run]
    is a generator function, as the class requires: the call runs none of
    its body; it raises when [run] does not take the arguments
    ([TypeError]), and returns the generator otherwise. *)
Definition Call : Type := exn + Generator.

(** [Runnable.run] of the base class, which takes any arguments: its
    generator raises at the first [next]. *)
Definition run : Call := inr (Raise (NotImplementedError "Implement run()")).

(** [Runnable.start]; [run] is the call of [self.run].  The
    result is the exception raised, if any, and the instance afterwards:
    [_running] is assigned once the call has returned, before the
    generator is advanced. *)
Definition start (run : Call) (self : t) : option exn * t :=
  if is_running self then (Some (RuntimeError "Already started"), self)
  else
    match run with
    | inl e => (Some e, self)
    | inr running =>
        match next running with
        | (StopIteration, g) =>
            (Some (TypeError "run() must yield just one time"), Some g)
        | (Raised e, g) => (Some e, Some g)
        | (Yielded JNull, g) => (None, Some g)
        | (Yielded _, g) => (Some (TypeError "run() must yield without value"), Some g)
        end
    end.

(** [Runnable.stop] *)
Definition stop (self : t) : option exn * t :=
  match self with
  | None => (Some (RuntimeError "Not started"), self)
  | Some running =>
      match next running with
      | (StopIteration, _) => (None, None)
      | (Raised e, _) => (Some e, None)
      | (Yielded _, _) => (Some (TypeError "run() must yield just one time"), None)
      end
  end.

(** [with self: body], through [__enter__] and [__exit__]: [body] maps the
    instance to the exception it raises, if any, and the instance it
    leaves; [__exit__] returns [None], so it suppresses nothing, and an
    exception of [stop] replaces that of the body. *)
Definition with_block (run : Call) (body : t -> option exn * t) (self : t)
  : option exn * t :=
  match start run self with
  | (Some e, self1) => (Some e, self1)
  | (None, self1) =>
      let (raised, self2) := body self1 in
      match stop self2 with
      | (Some e, self3) => (Some e, self3)
      | (None, self3) => (raised, self3)
      end
  end.

End Runnable.

(** ** The frame stack *)

(** A frame object: what identifies it here, and its [f_back]. *)
Inductive Frame : Type :=
| mkFrame (f_name : string) (f_back : option Frame).

Definition f_back (f : Frame) : option Frame :=
  match f with
  | mkFrame _ back => back
  end.

(** The [while frame is not None] loop of [frame_stack]; [appendleft] on
    the deque is [::] on the list. *)
Fixpoint frame_stack_loop (f : Frame) (frames : list Frame) : list Frame :=
  match f with
  | mkFrame _ None => f :: frames
  | mkFrame _ (Some back) => frame_stack_loop back (f :: frames)
  end.

(** [frame_stack] *)
Definition frame_stack (frame : option Frame) : list Frame :=
  match frame with
  | None => []
  | Some f => frame_stack_loop f []
  end.

(** ** The device hash *)

(** The lower-case hexadecimal digit of a number below 16. *)
Definition hex_digit (n : N) : ascii :=
  if (n <? 10)%N then ascii_of_N (48 + n) else ascii_of_N (87 + n).

Fixpoint hex_digits (fuel : nat) (n : N) (acc : string) : string :=
  match fuel with
  | 0 => acc
  | S fuel' =>
      let acc' := String (hex_digit (n mod 16)) acc in
      if (n <? 16)%N then acc' else hex_digits fuel' (n / 16)%N acc'
  end.

(** [hex(n)] for a number that is not negative, as Python 3 writes it
    (Python 2 puts an [L] after the digits of a [long]). *)
Definition hex (n : N) : string :=
  "0x" +:+ hex_digits (S (N.to_nat (N.log2 n))) n EmptyString.

(** [s.replace(old, new)] for an [old] that is not empty: the occurrences
    are taken from the left and do not overlap; [skip] counts the
    characters of an occurrence still to pass. *)
Fixpoint replace_from (skip : nat) (old new s : string) : string :=
  match s with
  | EmptyString => EmptyString
  | String c rest =>
      match skip with
      | S skip' => replace_from skip' old new rest
      | 0 =>
          if String.prefix old s
          then new +:+ replace_from (String.length old - 1) old new rest
          else String c (replace_from 0 old new rest)
      end
  end.

Definition replace (old new s : string) : string := replace_from 0 old new s.

Definition upper_char (c : ascii) : ascii :=
  let n := nat_of_ascii c in
  if (97 <=? n) && (n <=? 122) then ascii_of_nat (n - 32) else c.

(** [s.upper()] on 8-bit text without accented letters. *)
Fixpoint upper (s : string) : string :=
  match s with
  | EmptyString => EmptyString
  | String c rest => String (upper_char c) (upper rest)
  end.

(** [sep.join(parts)] *)
Fixpoint join (sep : string) (parts : list string) : string :=
  match parts with
  | [] => EmptyString
  | [part] => part
  | part :: rest => part +:+ sep +:+ join sep rest
  end.

(** [s[i: i + 2]] *)
Definition slice2 (s : string) (i : nat) : string := String.substring i 2 s.

(** The text [get_mac] hashes: [getnode] is [uuid.getnode()]. *)
Definition mac_text (getnode : N) : string :=
  let mac_num := upper (replace "0x" EmptyString (hex getnode)) in
  join "-" (map (slice2 mac_num) [0; 2; 4; 6; 8; 10]).

(** [get_mac]; [md5] is [hashlib.md5(...).hexdigest()]. *)
Definition get_mac (md5 : string -> string) (getnode : N) : string :=
  md5 (mac_text getnode).

(** ** Deferred calls *)

(** A deferred call by what running it does: it may register further
    calls with [defer], in that order, and it returns or raises. *)
Inductive Deferred : Type :=
| mkDeferred (d_name : string) (d_defers : list Deferred) (d_raises : bool).

Definition d_name (d : Deferred) : string :=
  match d with mkDeferred name _ _ => name end.

Definition d_defers (d : Deferred) : list Deferred :=
  match d with mkDeferred _ defers _ => defers end.

Definition d_raises (d : Deferred) : bool :=
  match d with mkDeferred _ _ raises => raises end.

(** [deferred.pop()]: the last element and the list without it. *)
Definition pop {A} (l : list A) : option (list A * A) :=
  match rev l with
  | [] => None
  | x :: before => Some (rev before, x)
  end.

(** The [while deferred] loop in the [finally] of [deferral]: the names of
    the calls made, in order, and how the loop ended ([Some true]: a call
    raised; [Some false]: the list ran empty; [None]: [fuel] iterations
    were not enough). *)
Fixpoint run_deferred (fuel : nat) (deferred : list Deferred)
  : list string * option bool :=
  match fuel with
  | 0 => ([], None)
  | S fuel' =>
      match pop deferred with
      | None => ([], Some false)
      | Some (before, d) =>
          if d_raises d then ([d_name d], Some true)
          else
            let (made, ended) := run_deferred fuel' (before ++ d_defers d) in
            (d_name d :: made, ended)
      end
  end.

(** ** Vocabulary of the properties *)

(** The channel a record is replayed on, by its shape. *)
Definition shape_channel (ks : list string) : string :=
  if contains "stackTrace" ks then "event" else "monitoring".

(** A call of [producer.send] whose value is a dict and whose topic is the
    one bound to the channel that matches the shape of the value. *)
Definition routed (self : Client) (s : Send) : Prop :=
  exists ks, keys (s_value s) = Some ks
             /\ producer_types self !! shape_channel ks = Some (s_topic s).

(** The spool holds what it held, or that followed by appended text. *)
Definition grown (w w' : World) : Prop :=
  spool w' = spool w \/ exists more, spool w' = Some (text (spool w) +:+ more).

(** The calls of [producer.send] made between two worlds. *)
Definition new_calls (w w' : World) : list Send :=
  drop (length (calls w)) (calls w').

(** A text is empty or ends with a line feed. *)
Fixpoint closed_text (s : string) : bool :=
  match s with
  | EmptyString => true
  | String c EmptyString => Ascii.eqb c LF
  | String _ rest => closed_text rest
  end.


(** What a call of [self.produce] on the channel of the record's shape adds
    to the calls. *)
Definition routes (self : Client) (k : Json -> string -> World -> Outcome pyret) : Prop :=
  forall d ks w, keys d = Some ks ->
    exists new, calls (world_of (k d (shape_channel ks) w)) = calls w ++ new
                /\ Forall (routed self) new.

(** ** Data of the examples *)

Definition topics : gmap string Json :=
  <["monitoring" := JStr "profiler"]>
    (<["event" := JStr "events"]> (<["log" := JStr "logs"]> ∅)).

Definition connected : Client :=
  {| apikey := "key"; app_id := "app"; base_url := "https://api.auklet.io/";
     send_enabled := true;
     producer := Some {| bootstrap_servers := JList [JStr "broker:9093"];
                         ssl_cafile := "tmp/ck_ca.pem";
                         ssl_certfile := "tmp/ck_cert.pem";
                         ssl_keyfile := "tmp/ck_private_key.pem";
                         security_protocol := "SSL";
                         ssl_check_hostname := false |};
     brokers := JList [JStr "broker:9093"];
     producer_types := topics;
     mac_hash := "mac"; commit_hash := PStr "abc123"; abs_path := PStr "/srv/app/" |}.

Definition disconnected : Client := set_producer None connected.

(** Fault oracles of the sends: never, always, and at one call only. *)
Definition never (n : nat) : bool := false.
Definition always (n : nat) : bool := true.
Definition at_call (i n : nat) : bool := Nat.eqb n i.

(** Fault oracles of the appends: none fails; each fails at [open]; each
    fails after [reached] characters of the line. *)
Definition no_fault (n : nat) : option Fault := None.
Definition open_fault (n : nat) : option Fault := Some AtOpen.
Definition cut_fault (reached n : nat) : option Fault := Some (AtWrite reached).

(** A world in which nothing was sent yet. *)
Definition fresh (content : option string) : World :=
  {| spool := content; calls := []; appends := 0 |}.

Definition metric (id : string) : Json :=
  JDict [("id", JStr id); ("cpu", JInt 7)].

Definition event (id : string) : Json :=
  JDict [("id", JStr id); ("stackTrace", JList [JStr "main"])].

(** The disk a bootstrap call ends with. *)
Definition disk_of {A} (r : Result A) : Disk :=
  match r with
  | Ok _ d | Err _ d => d
  end.

Definition config_url : string := "https://api.auklet.io/private/devices/config/".
Definition certs_url : string := "https://api.auklet.io/private/devices/certificates/".

Definition config_body : string :=
  MiniJson.dumps
    (JDict [("brokers", JList [JStr "broker:9093"]);
            ("prof_topic", JStr "profiler");
            ("event_topic", JStr "events");
            ("log_topic", JStr "logs")]).

Definition cert_archive : list (string * string) :=
  [("ck_ca", "CA"); ("ck_cert", "CERT"); ("ck_private_key", "KEY")].

(** A host on which every step of the bootstrap works. *)
Definition online : Host :=
  {| urlopen := fun req =>
       if String.eqb (url req) config_url then Body config_body
       else if String.eqb (url req) certs_url then Body "PK"
       else URLErrorRaised;
     ZipFile := fun data => if String.eqb data "PK" then Some cert_archive else None;
     makedirs := fun _ => Made;
     realpath := fun path => path;
     wb := fun _ => Whole;
     aliased := fun _ _ data => data;
     version_file := Some "abc123";
     abspath := fun path => "/srv/app/" +:+ path;
     broker_down := fun _ => false |}.

(** The same host with no broker to connect to. *)
Definition with_broker_down (h : Host) : Host :=
  {| urlopen := urlopen h; ZipFile := ZipFile h; makedirs := makedirs h;
     realpath := realpath h; wb := wb h; aliased := aliased h;
     version_file := version_file h;
     abspath := abspath h; broker_down := fun _ => true |}.

(** The same host on which no URL can be fetched. *)
Definition with_network_down (h : Host) : Host :=
  {| urlopen := fun _ => URLErrorRaised; ZipFile := ZipFile h; makedirs := makedirs h;
     realpath := realpath h; wb := wb h; aliased := aliased h;
     version_file := version_file h;
     abspath := abspath h; broker_down := broker_down h |}.

(** The same host on which only the certificates cannot be fetched. *)
Definition with_certs_down (h : Host) : Host :=
  {| urlopen := fun req =>
       if String.eqb (url req) config_url then urlopen h req else URLErrorRaised;
     ZipFile := ZipFile h; makedirs := makedirs h;
     realpath := realpath h; wb := wb h; aliased := aliased h;
     version_file := version_file h;
     abspath := abspath h; broker_down := broker_down h |}.

(** The same host without a readable [.auklet/version]. *)
Definition without_version (h : Host) : Host :=
  {| urlopen := urlopen h; ZipFile := ZipFile h; makedirs := makedirs h;
     realpath := realpath h; wb := wb h; aliased := aliased h;
     version_file := None;
     abspath := abspath h; broker_down := broker_down h |}.

Definition empty_disk : Disk := {| dirs := ∅; files := ∅ |}.

(** How the examples call [__init__]. *)
Definition boot (h : Host) : Result Client :=
  __init__ MiniJson.loads h "key" "app" "https://api.auklet.io/" "mac" empty_disk.

(** ** Vocabulary of the further properties *)

(** The two exceptions reading back a spool line can raise. *)
Definition line_error (e : exn) : Prop := e = ValueError \/ e = AttributeError.

(** [s[k:]] *)
Fixpoint string_drop (k : nat) (s : string) : string :=
  match k, s with
  | S k', String _ rest => string_drop k' rest
  | _, _ => s
  end.

(** Every path that exists on [d] exists on [d']. *)
Definition keeps_paths (h : Host) (d d' : Disk) : Prop :=
  forall p, path_exists h p d = true -> path_exists h p d' = true.

(** The file the entry of an archive is written to. *)
Definition cert_file (h : Host) (entry : string * string) : string :=
  realpath h (cert_path (fst entry)).

(** The three channels [_get_kafka_brokers] binds. *)
Definition channels : list string := ["monitoring"; "event"; "log"].

(** The keys [build_event_data] assigns. *)
Definition enriched_keys : list string :=
  ["application"; "publicIP"; "id"; "timestamp"; "systemMetrics"; "macAddressHash";
   "commitHash"].

(** An [Event] for the examples; it binds [id] itself, as the enrichment
    does. *)
Definition sample_event (type traceback tree : Json) (path : pyobj)
  : list (string * Json) :=
  [("stackTrace", traceback); ("excType", type); ("tree", tree);
   ("absPath", as_json path); ("id", JStr "from-event")].

Definition sample_metrics : list (string * Json) := [("cpu", JInt 7)].

(** How the examples call [build_event_data]. *)
Definition enrich (get_ip : option string) : list (string * Json) :=
  build_event_data sample_event sample_metrics get_ip "uuid-1" "2018-06-01 12:00:00"
                   connected (JStr "ValueError") (JList [JStr "main"]) JNull.

(** Each frame of the list but the first has the frame before it as its
    [f_back]. *)
Definition linked (frames : list Frame) : Prop :=
  forall i a b, frames !! i = Some a -> frames !! S i = Some b -> f_back b = Some a.

(** A deferred call that registers nothing and returns. *)
Definition plain (d : Deferred) : Prop := d_defers d = [] /\ d_raises d = false.

(** No character of the text is the letter x. *)
Fixpoint no_x (s : string) : bool :=
  match s with
  | EmptyString => true
  | String c rest => negb (Ascii.eqb c "x") && no_x rest
  end.

(** * Properties *)

Example mini_roundtrip :
  let r := JDict [("id", JStr "a-1"); ("stackTrace", JList [JInt 3; JInt (-12); JNull]);
                  ("systemMetrics", JDict [("up", JBool true); ("note", JStr "x y")])] in
  MiniJson.dumps r
  = "{" +:+ String MiniJson.dq "id" +:+ String MiniJson.dq ": "
      +:+ String MiniJson.dq "a-1" +:+ String MiniJson.dq ", "
      +:+ String MiniJson.dq "stackTrace" +:+ String MiniJson.dq ": [3, -12, null], "
      +:+ String MiniJson.dq "systemMetrics" +:+ String MiniJson.dq ": {"
      +:+ String MiniJson.dq "up" +:+ String MiniJson.dq ": true, "
      +:+ String MiniJson.dq "note" +:+ String MiniJson.dq ": "
      +:+ String MiniJson.dq "x y" +:+ String MiniJson.dq "}}"
  /\ MiniJson.loads (MiniJson.dumps r) = Some r.
Proof. vm_compute. split; reflexivity. Qed.

Example splitlines_examples :
  splitlines EmptyString = []
  /\ splitlines nl = [EmptyString]
  /\ splitlines ("a" +:+ nl +:+ "b" +:+ nl) = ["a"; "b"]
  /\ splitlines ("a" +:+ nl +:+ nl +:+ "b") = ["a"; EmptyString; "b"]
  /\ splitlines ("a" +:+ String CR nl +:+ "b") = ["a"; "b"]
  /\ splitlines ("a" +:+ String CR "b") = ["a"; "b"].
Proof. repeat split; reflexivity. Qed.

Example resize_examples :
  resize 0 "abc" = EmptyString
  /\ resize 3 "abc" = "abc"
  /\ resize 3 "abcdef" = "abc"
  /\ resize 2 "a" = String "a" (String zero EmptyString).
Proof. repeat split; reflexivity. Qed.

Example dirname_examples :
  dirname "tmp/local.txt" = "tmp"
  /\ dirname "tmp/sub/ck_ca.pem" = "tmp/sub"
  /\ dirname "local.txt" = EmptyString
  /\ dirname "/local.txt" = "/"
  /\ dirname "tmp//x" = "tmp".
Proof. repeat split; reflexivity. Qed.

Example unpack2_examples :
  unpack2 (PTuple [PStr "abc123"; PStr "/srv/app/"]) = Some (PStr "abc123", PStr "/srv/app/")
  /\ unpack2 (PStr "ab") = Some (PStr "a", PStr "b")
  /\ unpack2 (PStr EmptyString) = None
  /\ unpack2 (PStr "abc") = None.
Proof. repeat split; reflexivity. Qed.

(** A send that raises puts the record in the spool, as its only line. *)
Example spooled_after_failed_send :
  produce MiniJson.dumps MiniJson.loads always no_fault 3 connected
          (event "e1") "event" (fresh None)
  = Ret PyNone
        {| spool := Some (MiniJson.dumps (event "e1") +:+ nl);
           calls := [{| s_topic := JStr "events"; s_value := event "e1"; s_ok := false |}];
           appends := 1 |}.
Proof. vm_compute. reflexivity. Qed.

(** An unknown channel: the lookup of the topic raises before any send. *)
Example unknown_channel :
  produce MiniJson.dumps MiniJson.loads never no_fault 3 connected
          (metric "m1") "audit" (fresh None)
  = Raise KeyError (fresh None).
Proof. vm_compute. reflexivity. Qed.

(** A spool line that is not JSON stops the replay with [ValueError]. *)
Example broken_spool_line :
  produce MiniJson.dumps MiniJson.loads never no_fault 3 connected
          (metric "m1") "monitoring" (fresh (Some ("oops" +:+ nl)))
  = Raise ValueError
          {| spool := Some ("oops" +:+ nl);
             calls := [{| s_topic := JStr "profiler"; s_value := metric "m1"; s_ok := true |}];
             appends := 0 |}.
Proof. vm_compute. reflexivity. Qed.

(** ** Facts about text *)

Lemma append_cons (c : ascii) (a b : string) :
  String c a +:+ b = String c (a +:+ b).
Proof. reflexivity. Qed.

Lemma append_nil_r (s : string) : s +:+ EmptyString = s.
Proof.
  induction s as [|c s IH]; [reflexivity|]. now rewrite append_cons, IH.
Qed.

Lemma append_assoc (a b c : string) : (a +:+ b) +:+ c = a +:+ (b +:+ c).
Proof.
  induction a as [|x a IH]; [reflexivity|]. now rewrite !append_cons, IH.
Qed.

Lemma length_append (a b : string) :
  String.length (a +:+ b) = String.length a + String.length b.
Proof.
  induction a as [|x a IH]; [reflexivity|]. rewrite append_cons. simpl. now rewrite IH.
Qed.

Lemma substring_prefix (a b : string) :
  String.substring 0 (String.length a) (a +:+ b) = a.
Proof.
  induction a as [|x a IH]; [now destruct b|].
  rewrite append_cons. simpl. now rewrite IH.
Qed.


Lemma substring_empty (s : string) : String.substring 0 0 s = EmptyString.
Proof. now destruct s. Qed.

Lemma resize_append (a b : string) : resize (String.length a) (a +:+ b) = a.
Proof.
  unfold resize. rewrite substring_prefix, length_append.
  replace (String.length a - (String.length a + String.length b)) with 0 by lia.
  apply append_nil_r.
Qed.

Lemma resize_same (a : string) : resize (String.length a) a = a.
Proof. rewrite <- (append_nil_r a) at 2. apply resize_append. Qed.

Lemma splitlines_nil (s : string) : splitlines s = [] -> s = EmptyString.
Proof.
  destruct s as [|c s]; [reflexivity|]. simpl.
  destruct (is_linebreak c).
  - destruct s as [|d s]; [discriminate|].
    destruct (Ascii.eqb c CR && Ascii.eqb d LF); discriminate.
  - destruct (splitlines s); discriminate.
Qed.

Lemma splitlines_cons (c : ascii) (rest : string) :
  splitlines (String c rest)
  = if is_linebreak c then
      match rest with
      | String d rest' =>
          if Ascii.eqb c CR && Ascii.eqb d LF
          then EmptyString :: splitlines rest'
          else EmptyString :: splitlines rest
      | EmptyString => [EmptyString]
      end
    else
      match splitlines rest with
      | [] => [String c EmptyString]
      | line :: lines => String c line :: lines
      end.
Proof. reflexivity. Qed.

(** After a text that ends its last line, appended text splits on its
    own. *)
Lemma splitlines_closed (a : string) :
  closed_text a = true ->
  forall b, splitlines (a +:+ b) = splitlines a ++ splitlines b.
Proof.
  remember (String.length a) as n eqn:Hn.
  revert a Hn. induction n as [n IH] using lt_wf_ind.
  intros a Hn Hclosed b. destruct a as [|c a]; [reflexivity|].
  destruct a as [|d a].
  - simpl in Hclosed. apply Ascii.eqb_eq in Hclosed. subst c.
    rewrite append_cons. change (EmptyString +:+ b) with b.
    simpl. destruct b as [|e b]; reflexivity.
  - assert (Hrest : closed_text (String d a) = true) by exact Hclosed.
    assert (IHrest : splitlines (String d a +:+ b)
                     = splitlines (String d a) ++ splitlines b).
    { apply (IH (String.length (String d a))); [simpl in *; lia | reflexivity | exact Hrest]. }
    rewrite append_cons.
    rewrite (splitlines_cons c (String d a +:+ b)), (splitlines_cons c (String d a)).
    destruct (is_linebreak c) eqn:Hc.
    + rewrite append_cons. cbv beta iota.
      destruct (Ascii.eqb c CR && Ascii.eqb d LF) eqn:Hcr.
      * assert (Ha : closed_text a = true).
        { destruct a as [|e a]; [reflexivity | exact Hrest]. }
        rewrite (IH (String.length a)); [reflexivity | simpl in *; lia | reflexivity | exact Ha].
      * rewrite <- append_cons. rewrite IHrest. reflexivity.
    + rewrite IHrest.
      destruct (splitlines (String d a)) as [|l ls] eqn:Hl.
      * apply splitlines_nil in Hl. discriminate.
      * reflexivity.
Qed.

Lemma closed_text_append (a b : string) :
  closed_text b = true -> b <> EmptyString -> closed_text (a +:+ b) = true.
Proof.
  intros Hb Hne. induction a as [|c a IH]; [exact Hb|].
  rewrite append_cons. simpl. destruct (a +:+ b) eqn:E.
  - destruct a; [change (b = EmptyString) in E; congruence | discriminate].
  - exact IH.
Qed.

Lemma closed_text_line (a line : string) : closed_text (a +:+ line +:+ nl) = true.
Proof.
  apply closed_text_append.
  - induction line as [|c line IH]; [reflexivity|].
    rewrite append_cons. simpl.
    destruct (line +:+ nl) eqn:E; [destruct line; discriminate | exact IH].
  - destruct line; discriminate.
Qed.

(** ** Facts about the delivery core *)

Lemma grown_refl (w : World) : grown w w.
Proof. now left. Qed.

Lemma grown_trans (w1 w2 w3 : World) : grown w1 w2 -> grown w2 w3 -> grown w1 w3.
Proof.
  unfold grown. intros [E12 | [m12 E12]] [E23 | [m23 E23]].
  - left. congruence.
  - right. exists m23. now rewrite E23, E12.
  - right. exists m12. congruence.
  - right. exists (m12 +:+ m23). rewrite E23, E12. simpl.
    now rewrite append_assoc.
Qed.

Lemma calls_app_new (w w' : World) (new : list Send) :
  calls w' = calls w ++ new -> new_calls w w' = new.
Proof. intros E. unfold new_calls. rewrite E. apply drop_app_length. Qed.

Section DeliveryFacts.

Variable dumps : Json -> string.
Variable loads : string -> option Json.
Variable send_raises : nat -> bool.
Variable append_fails : nat -> option Fault.

Local Abbreviation send' := (send send_raises).
Local Abbreviation write' := (_write_to_local dumps append_fails).
Local Abbreviation lines' := (replay_lines loads).
Local Abbreviation pass' := (_produce_from_local loads).
Local Abbreviation produce' := (produce dumps loads send_raises append_fails).

(** The two ways the world changes. *)
Lemma write_grown (data : Json) (w : World) : grown w (snd (write' data w)).
Proof.
  unfold _write_to_local. destruct (append_fails (appends w)) as [[|reached]|]; simpl.
  - now left.
  - right. now exists (String.substring 0 reached (dumps data +:+ nl)).
  - right. now exists (dumps data +:+ nl).
Qed.

Lemma write_calls (data : Json) (w : World) : calls (snd (write' data w)) = calls w.
Proof. unfold _write_to_local. now destruct (append_fails (appends w)) as [[|reached]|]. Qed.

(** An append that does not report a failure has put the whole line at the
    end of the spool. *)
Lemma write_done (data : Json) (w w' : World) :
  write' data w = (PyNone, w') ->
  append_fails (appends w) = None
  /\ spool w' = Some (text (spool w) +:+ dumps data +:+ nl)
  /\ calls w' = calls w.
Proof.
  unfold _write_to_local.
  destruct (append_fails (appends w)) as [[|reached]|]; try discriminate.
  now intros [= <-].
Qed.

(** What holds of [self.produce] is assumed of the callback here, and
    carried through the loop and the pass. *)
Section Pass.

Variable k : Json -> string -> World -> Outcome pyret.
Hypothesis k_grown : forall d t w, grown w (world_of (k d t w)).
Hypothesis k_calls : forall d t w, exists new, calls (world_of (k d t w)) = calls w ++ new.
Hypothesis k_raises :
  forall d t w e w', k d t w = Raise e w' -> e <> IOError /\ e <> KafkaError.

Lemma lines_grown (lines : list string) (w : World) :
  grown w (world_of (lines' k lines w)).
Proof.
  revert w. induction lines as [|line rest IH]; intros w; simpl; [apply grown_refl|].
  destruct (loads line) as [loaded|]; [|apply grown_refl].
  destruct (keys loaded) as [ks|]; [|apply grown_refl].
  destruct (contains "stackTrace" ks).
  - specialize (k_grown loaded "event" w).
    destruct (k loaded "event" w) as [r w1|e w1|w1]; simpl in *; try assumption.
    eapply grown_trans; [exact k_grown | apply IH].
  - specialize (k_grown loaded "monitoring" w).
    destruct (k loaded "monitoring" w) as [r w1|e w1|w1]; simpl in *; try assumption.
    eapply grown_trans; [exact k_grown | apply IH].
Qed.

Lemma lines_calls (lines : list string) (w : World) :
  exists new, calls (world_of (lines' k lines w)) = calls w ++ new.
Proof.
  revert w. induction lines as [|line rest IH]; intros w; simpl.
  { exists []. now rewrite app_nil_r. }
  destruct (loads line) as [loaded|]; [|exists []; now rewrite app_nil_r].
  destruct (keys loaded) as [ks|]; [|exists []; now rewrite app_nil_r].
  destruct (contains "stackTrace" ks).
  - destruct (k_calls loaded "event" w) as [n1 E1].
    destruct (k loaded "event" w) as [r w1|e w1|w1]; simpl in *; eauto.
    destruct (IH w1) as [n2 E2]. exists (n1 ++ n2). now rewrite E2, E1, app_assoc.
  - destruct (k_calls loaded "monitoring" w) as [n1 E1].
    destruct (k loaded "monitoring" w) as [r w1|e w1|w1]; simpl in *; eauto.
    destruct (IH w1) as [n2 E2]. exists (n1 ++ n2). now rewrite E2, E1, app_assoc.
Qed.

Lemma lines_raises (lines : list string) (w : World) (e : exn) (w' : World) :
  lines' k lines w = Raise e w' -> e <> IOError /\ e <> KafkaError.
Proof.
  revert w. induction lines as [|line rest IH]; intros w; simpl; [discriminate|].
  destruct (loads line) as [loaded|]; [|intros [= <- _]; split; discriminate].
  destruct (keys loaded) as [ks|]; [|intros [= <- _]; split; discriminate].
  destruct (contains "stackTrace" ks).
  - destruct (k loaded "event" w) as [r w1|e1 w1|w1] eqn:E; try discriminate.
    + apply IH.
    + intros [= <- _]. eapply k_raises, E.
  - destruct (k loaded "monitoring" w) as [r w1|e1 w1|w1] eqn:E; try discriminate.
    + apply IH.
    + intros [= <- _]. eapply k_raises, E.
Qed.

Lemma pass_grown (w : World) : grown w (world_of (pass' k w)).
Proof.
  unfold _produce_from_local. destruct (spool w) as [content|] eqn:Hs; [|apply grown_refl].
  pose proof (lines_grown (splitlines content) w) as G.
  destruct (lines' k (splitlines content) w) as [r w1|e w1|w1]; simpl in *.
  - left. destruct G as [E | [more E]]; rewrite E, Hs; simpl.
    + now rewrite resize_same.
    + now rewrite resize_append.
  - destruct e; exact G.
  - exact G.
Qed.

Lemma pass_calls (w : World) :
  exists new, calls (world_of (pass' k w)) = calls w ++ new.
Proof.
  unfold _produce_from_local. destruct (spool w) as [content|].
  2:{ exists []. now rewrite app_nil_r. }
  destruct (lines_calls (splitlines content) w) as [new E].
  exists new.
  destruct (lines' k (splitlines content) w) as [r w1|e w1|w1]; simpl in *;
    [exact E | destruct e; exact E | exact E].
Qed.

Lemma pass_raises (w : World) (e : exn) (w' : World) :
  pass' k w = Raise e w' -> e <> IOError /\ e <> KafkaError.
Proof.
  unfold _produce_from_local. destruct (spool w) as [content|]; [|discriminate].
  destruct (lines' k (splitlines content) w) as [r w1|e1 w1|w1] eqn:E; try discriminate.
  pose proof (lines_raises _ _ _ _ E) as [H1 H2].
  destruct e1; try congruence; intros [= <- _]; split; discriminate.
Qed.

(** A pass that returns leaves the spool with the content it had when the
    pass opened it. *)
Lemma pass_keeps (w : World) (r : pyret) (w' : World) :
  pass' k w = Ret r w' -> spool w' = spool w.
Proof.
  intros E. pose proof (pass_grown w) as G. rewrite E in G. simpl in G.
  unfold _produce_from_local in E. destruct (spool w) as [content|] eqn:Hs.
  2:{ injection E as _ <-. exact Hs. }
  pose proof (lines_grown (splitlines content) w) as G1.
  destruct (lines' k (splitlines content) w) as [r1 w1|e1 w1|w1] eqn:E1; simpl in *.
  - injection E as _ <-. simpl.
    destruct G1 as [E2 | [more E2]]; rewrite E2, ?Hs; simpl.
    + now rewrite resize_same.
    + now rewrite resize_append.
  - apply lines_raises in E1 as [H1 H2]. destruct e1; congruence.
  - discriminate.
Qed.

End Pass.

Lemma produce_facts (fuel : nat) (self : Client) :
  forall data data_type w,
    grown w (world_of (produce' fuel self data data_type w))
    /\ (exists new, calls (world_of (produce' fuel self data data_type w)) = calls w ++ new)
    /\ (forall e w', produce' fuel self data data_type w = Raise e w' ->
                     e <> IOError /\ e <> KafkaError).
Proof.
  assert (Hstay : forall (o : Outcome pyret) w, world_of o = w ->
            (forall e w', o = Raise e w' -> e <> IOError /\ e <> KafkaError) ->
            grown w (world_of o)
            /\ (exists new, calls (world_of o) = calls w ++ new)
            /\ (forall e w', o = Raise e w' -> e <> IOError /\ e <> KafkaError)).
  { intros o w <- Hr. split; [apply grown_refl|].
    split; [exists []; now rewrite app_nil_r | exact Hr]. }
  induction fuel as [|fuel IH]; intros data data_type w; simpl;
    (destruct (producer self) as [p|]; [|apply Hstay; [reflexivity | discriminate]]);
    (destruct (producer_types self !! data_type) as [topic|];
     [|apply Hstay; [reflexivity | intros e w' [= <- _]; split; discriminate]]);
    (destruct (negb (send_raises (length (calls w)))) eqn:Hok; simpl;
     [|split; [eapply grown_trans; [|apply write_grown]; now left|];
       split; [rewrite write_calls; simpl; eauto | discriminate]]).
  - split; [now left|]. split; [simpl; eauto | discriminate].
  - set (w1 := {| spool := spool w;
                  calls := calls w ++ [{| s_topic := topic; s_value := data; s_ok := true |}];
                  appends := appends w |}).
    assert (Hg : forall d t w0, grown w0 (world_of (produce' fuel self d t w0)))
      by (intros; apply IH).
    assert (Hc : forall d t w0, exists new,
                 calls (world_of (produce' fuel self d t w0)) = calls w0 ++ new)
      by (intros; apply IH).
    assert (Hr : forall d t w0 e w', produce' fuel self d t w0 = Raise e w' ->
                                     e <> IOError /\ e <> KafkaError)
      by (intros d t w0; apply IH).
    pose proof (pass_grown _ Hg w1) as G.
    destruct (pass_calls _ Hc w1) as [new C].
    pose proof (pass_raises _ Hr w1) as R.
    assert (C' : exists new', calls (world_of (pass' (produce' fuel self) w1))
                              = calls w ++ new').
    { exists ([{| s_topic := topic; s_value := data; s_ok := true |}] ++ new).
      now rewrite C, app_assoc. }
    destruct (pass' (produce' fuel self) w1) as [r w2|e w2|w2]; simpl in *.
    + split; [exact G|]. split; [exact C' | discriminate].
    + destruct (R e w2 eq_refl) as [R1 R2].
      destruct e; try congruence; simpl; (split; [exact G|]);
        (split; [exact C' | intros e' w' [= <- _]; split; discriminate]).
    + split; [exact G|]. split; [exact C' | discriminate].
Qed.

(** [produce] has no [return] statement: what it returns is [None]. *)
Lemma produce_ret_none fuel self data data_type w r w' :
  produce' fuel self data data_type w = Ret r w' -> r = PyNone.
Proof.
  destruct fuel as [|fuel]; simpl;
    (destruct (producer self); [|now intros [= <- _]]);
    (destruct (producer_types self !! data_type); [|discriminate]);
    (destruct (negb (send_raises (length (calls w)))); simpl;
     [|now intros [= <- _]]); [discriminate|].
  destruct (pass' (produce' fuel self) _) as [r2 w2|e w2|w2];
    [now intros [= <- _] | destruct e; try discriminate; now intros [= <- _]
    | discriminate].
Qed.

(** Without a producer the body of [produce] is skipped. *)
Lemma produce_idle fuel self data data_type w :
  producer self = None -> produce' fuel self data data_type w = Ret PyNone w.
Proof. intros H. destruct fuel; simpl; now rewrite H. Qed.

Lemma produce_grown fuel self data data_type w :
  grown w (world_of (produce' fuel self data data_type w)).
Proof. apply produce_facts. Qed.

Lemma produce_calls fuel self data data_type w :
  exists new, calls (world_of (produce' fuel self data data_type w)) = calls w ++ new.
Proof. apply produce_facts. Qed.

Lemma produce_raises fuel self data data_type w e w' :
  produce' fuel self data data_type w = Raise e w' -> e <> IOError /\ e <> KafkaError.
Proof. apply produce_facts. Qed.

(** A replay pass that returns leaves the spool as it found it: the cut is
    made at the end of what was read, so it removes only what nested calls
    appended meanwhile. *)
Lemma replay_keeps_spool fuel self w r w' :
  pass' (produce' fuel self) w = Ret r w' -> spool w' = spool w.
Proof.
  apply pass_keeps.
  - intros; apply produce_grown.
  - intros d t w0; apply produce_raises.
Qed.

(** While no append is cut short by an error of a write, the spool stays
    a sequence of whole lines: if its text ends its last line before a
    call of [produce], it does so after, however the call ends. *)
Section WholeLines.

Hypothesis no_cut : forall n reached, append_fails n <> Some (AtWrite reached).

Lemma write_closed (data : Json) (w : World) :
  closed_text (text (spool w)) = true ->
  closed_text (text (spool (snd (write' data w)))) = true.
Proof.
  intros H. unfold _write_to_local.
  destruct (append_fails (appends w)) as [[|reached]|] eqn:Hf; simpl;
    [exact H | now apply no_cut in Hf | apply closed_text_line].
Qed.

Lemma lines_closed k (lines : list string) :
  (forall d t w, closed_text (text (spool w)) = true ->
                 closed_text (text (spool (world_of (k d t w)))) = true) ->
  forall w, closed_text (text (spool w)) = true ->
            closed_text (text (spool (world_of (lines' k lines w)))) = true.
Proof.
  intros Hk. induction lines as [|line rest IH]; intros w Hw; simpl; [exact Hw|].
  destruct (loads line) as [loaded|]; [|exact Hw].
  destruct (keys loaded) as [ks|]; [|exact Hw].
  destruct (contains "stackTrace" ks).
  - specialize (Hk loaded "event" w Hw).
    destruct (k loaded "event" w) as [r w1|e w1|w1]; simpl in *; auto.
  - specialize (Hk loaded "monitoring" w Hw).
    destruct (k loaded "monitoring" w) as [r w1|e w1|w1]; simpl in *; auto.
Qed.

Lemma produce_closed (fuel : nat) (self : Client) :
  forall data data_type w,
    closed_text (text (spool w)) = true ->
    closed_text (text (spool (world_of (produce' fuel self data data_type w)))) = true.
Proof.
  induction fuel as [|fuel IH]; intros data data_type w Hw; simpl;
    (destruct (producer self) as [p|]; [|exact Hw]);
    (destruct (producer_types self !! data_type) as [topic|]; [|exact Hw]);
    (destruct (negb (send_raises (length (calls w)))) eqn:Hok; simpl;
     [|now apply write_closed]).
  - exact Hw.
  - set (w1 := {| spool := spool w;
                  calls := calls w ++ [{| s_topic := topic; s_value := data; s_ok := true |}];
                  appends := appends w |}).
    pose proof (replay_keeps_spool fuel self w1) as K.
    assert (L : forall lines,
               closed_text (text (spool (world_of
                 (lines' (produce' fuel self) lines w1)))) = true)
      by (intros lines; now apply lines_closed).
    unfold _produce_from_local in *. simpl spool in *.
    destruct (spool w) as [content|] eqn:Hs; [|reflexivity].
    specialize (L (splitlines content)).
    destruct (lines' (produce' fuel self) (splitlines content) w1) as [r w2|e w2|w2];
      simpl in *.
    + pose proof (K PyNone _ eq_refl) as E. simpl in E. now rewrite E.
    + destruct e; simpl; try exact L. now apply write_closed.
    + exact L.
Qed.

End WholeLines.

End DeliveryFacts.

(** ** Routing by shape *)

Section Routing.

Variable dumps : Json -> string.
Variable loads : string -> option Json.
Variable send_raises : nat -> bool.
Variable append_fails : nat -> option Fault.
Variable self : Client.

Local Abbreviation lines' := (replay_lines loads).
Local Abbreviation pass' := (_produce_from_local loads).
Local Abbreviation produce' := (produce dumps loads send_raises append_fails).

Lemma lines_routed k (lines : list string) (w : World) :
  routes self k ->
  exists new, calls (world_of (lines' k lines w)) = calls w ++ new
              /\ Forall (routed self) new.
Proof.
  intros Hk. revert w. induction lines as [|line rest IH]; intros w; simpl.
  { exists []. now rewrite app_nil_r. }
  destruct (loads line) as [loaded|]; [|exists []; now rewrite app_nil_r].
  destruct (keys loaded) as [ks|] eqn:Hks; [|exists []; now rewrite app_nil_r].
  destruct (Hk loaded ks w Hks) as (n1 & E1 & F1). unfold shape_channel in E1.
  destruct (contains "stackTrace" ks);
    (destruct (k loaded _ w) as [r w1|e w1|w1]; simpl in *; [|eauto|eauto]);
    destruct (IH w1) as (n2 & E2 & F2); exists (n1 ++ n2);
    (split; [now rewrite E2, E1, app_assoc | now apply Forall_app]).
Qed.

Lemma pass_routed k (w : World) :
  routes self k ->
  exists new, calls (world_of (pass' k w)) = calls w ++ new
              /\ Forall (routed self) new.
Proof.
  intros Hk. unfold _produce_from_local. destruct (spool w) as [content|].
  2:{ exists []. now rewrite app_nil_r. }
  destruct (lines_routed k (splitlines content) w Hk) as (new & E & F).
  exists new. split; [|exact F].
  destruct (lines' k (splitlines content) w) as [r w1|e w1|w1]; simpl in *;
    [exact E | destruct e; exact E | exact E].
Qed.

Lemma produce_routes (fuel : nat) : routes self (produce' fuel self).
Proof.
  induction fuel as [|fuel IH]; intros d ks w Hks; simpl;
    (destruct (producer self) as [p|]; [|exists []; now rewrite app_nil_r]);
    (destruct (producer_types self !! shape_channel ks) as [topic|] eqn:Ht;
     [|exists []; now rewrite app_nil_r]);
    assert (Hcall : forall ok, routed self {| s_topic := topic; s_value := d; s_ok := ok |})
      by (intros ok; exists ks; now split);
    (destruct (negb (send_raises (length (calls w)))) eqn:Hok; simpl;
     [|rewrite write_calls; simpl; eexists; split; [reflexivity | now constructor]]).
  - eexists; split; [reflexivity | now constructor].
  - set (w1 := {| spool := spool w;
                  calls := calls w ++ [{| s_topic := topic; s_value := d; s_ok := true |}];
                  appends := appends w |}).
    destruct (pass_routed _ w1 IH) as (new & E & F).
    exists ({| s_topic := topic; s_value := d; s_ok := true |} :: new).
    split; [|now constructor].
    replace (calls w ++ {| s_topic := topic; s_value := d; s_ok := true |} :: new)
      with (calls w1 ++ new) by (simpl; now rewrite <- app_assoc).
    destruct (pass' (produce' fuel self) w1) as [r w2|e w2|w2]; simpl in *;
      [exact E | | exact E].
    destruct e; simpl; try exact E. now rewrite write_calls.
Qed.

(** With a producer and a topic for the channel, the first thing a call of
    [produce] does is the send of its record. *)
Lemma produce_first_call fuel p data data_type topic w :
  producer self = Some p ->
  producer_types self !! data_type = Some topic ->
  exists more,
    calls (world_of (produce' fuel self data data_type w))
    = calls w ++ {| s_topic := topic; s_value := data;
                    s_ok := negb (send_raises (length (calls w))) |} :: more.
Proof.
  intros Hp Ht.
  set (w1 := snd (send send_raises topic data w)).
  assert (Hafter : forall o : Outcome pyret,
             (exists new, calls (world_of o) = calls w1 ++ new) ->
             exists more, calls (world_of o)
                          = calls w ++ {| s_topic := topic; s_value := data;
                                          s_ok := negb (send_raises (length (calls w))) |}
                                       :: more).
  { intros o [new E]. exists new. rewrite E. simpl. now rewrite <- app_assoc. }
  destruct fuel as [|fuel]; simpl; rewrite Hp, Ht;
    destruct (negb (send_raises (length (calls w)))) eqn:Hok; simpl.
  - exists []. reflexivity.
  - rewrite write_calls. simpl. exists []. reflexivity.
  - destruct (produce_calls dumps loads send_raises append_fails (S fuel) self
                data data_type w) as [new E].
    simpl in E. rewrite Hp, Ht, Hok in E.
    fold w1 in E.
    destruct (pass_calls loads (produce' fuel self)
                (fun d t w0 => produce_calls dumps loads send_raises append_fails
                                 fuel self d t w0)
                {| spool := spool w;
                   calls := calls w ++ [{| s_topic := topic; s_value := data; s_ok := true |}];
                   appends := appends w |}) as [new' E'].
    simpl in E'.
    destruct (pass' (produce' fuel self) _) as [r w2|e w2|w2]; simpl in *.
    + exists new'. rewrite E'. now rewrite <- app_assoc.
    + destruct e; simpl; rewrite ?write_calls;
        exists new'; rewrite E'; now rewrite <- app_assoc.
    + exists new'. rewrite E'. now rewrite <- app_assoc.
  - rewrite write_calls. simpl. exists []. reflexivity.
Qed.

(** A call of [produce] that returns, on a client with a producer, found a
    topic for its channel. *)
Lemma produce_ret_topic fuel p data data_type w r w' :
  producer self = Some p ->
  produce' fuel self data data_type w = Ret r w' ->
  exists topic, producer_types self !! data_type = Some topic.
Proof.
  intros Hp. destruct (producer_types self !! data_type) as [topic|] eqn:Ht; [eauto|].
  destruct fuel; simpl; rewrite Hp, Ht; discriminate.
Qed.

End Routing.

(** ** Unbounded replay *)

Section Reentry.

Variable dumps : Json -> string.
Variable loads : string -> option Json.
Variable send_raises : nat -> bool.
Variable append_fails : nat -> option Fault.
Variable self : Client.

Local Abbreviation produce' := (produce dumps loads send_raises append_fails).

(** With a line in the spool and a broker that accepts everything, each
    replayed send opens the next pass over the same spool: the calls never
    get past the first line, whatever room the call stack has. *)
Lemma produce_overflows p content line rest loaded ks first :
  producer self = Some p ->
  (forall n, send_raises n = false) ->
  splitlines content = line :: rest ->
  loads line = Some loaded ->
  keys loaded = Some ks ->
  producer_types self !! shape_channel ks = Some first ->
  forall fuel data data_type topic w,
    spool w = Some content ->
    producer_types self !! data_type = Some topic ->
    produce' fuel self data data_type w
    = Overflow {| spool := spool w;
                  calls := calls w
                           ++ {| s_topic := topic; s_value := data; s_ok := true |}
                           :: repeat {| s_topic := first; s_value := loaded; s_ok := true |} fuel;
                  appends := appends w |}.
Proof.
  intros Hp Hnever Hlines Hloaded Hks Hfirst.
  induction fuel as [|fuel IH]; intros data data_type topic w Hs Ht; simpl;
    rewrite Hp, Ht, Hnever; simpl; [reflexivity|].
  unfold _produce_from_local. simpl. rewrite Hs, Hlines. simpl.
  rewrite Hloaded, Hks.
  set (w1 := {| spool := Some content;
                calls := calls w ++ [{| s_topic := topic; s_value := data; s_ok := true |}];
                appends := appends w |}).
  assert (E : (if contains "stackTrace" ks
               then produce' fuel self loaded "event" w1
               else produce' fuel self loaded "monitoring" w1)
              = produce' fuel self loaded (shape_channel ks) w1).
  { unfold shape_channel. now destruct (contains "stackTrace" ks). }
  rewrite E, (IH loaded (shape_channel ks) first w1 eq_refl Hfirst).
  simpl. now rewrite <- app_assoc.
Qed.

End Reentry.

(** ** The properties of the delivery core *)

(** C1, at the input where the code departs from it: the spool holds one
    record, the live send succeeds and the send of the replayed record
    raises, so that the pass completes.  The claim wants the spool empty
    after the pass; [truncate()] cuts at the end of what was read, and the
    record is still there. *)
Theorem replay_leaves_spool_in_place :
  forall fuel,
    let line := MiniJson.dumps (metric "m1") +:+ nl in
    produce MiniJson.dumps MiniJson.loads (at_call 1) no_fault (S fuel) connected
            (metric "m2") "monitoring" (fresh (Some line))
    = Ret PyNone
          {| spool := Some line;
             calls := [ {| s_topic := JStr "profiler"; s_value := metric "m2"; s_ok := true |};
                        {| s_topic := JStr "profiler"; s_value := metric "m1"; s_ok := false |} ];
             appends := 1 |}
    /\ Some line <> Some EmptyString.
Proof.
  intros fuel. split; [|discriminate].
  destruct fuel; vm_compute; reflexivity.
Qed.

(** C2, at the input where the code departs from it: the spool holds one
    record and every send succeeds.  The claim wants one sweep; each
    replayed send re-enters the replay, so for every depth [fuel] of the
    call stack the call ends by exhausting it, having sent the spooled
    record [fuel] times. *)
Theorem replay_reenters_without_end :
  forall fuel,
    let line := MiniJson.dumps (metric "m1") +:+ nl in
    produce MiniJson.dumps MiniJson.loads never no_fault fuel connected
            (metric "m2") "monitoring" (fresh (Some line))
    = Overflow
          {| spool := Some line;
             calls := {| s_topic := JStr "profiler"; s_value := metric "m2"; s_ok := true |}
                      :: repeat {| s_topic := JStr "profiler"; s_value := metric "m1";
                                   s_ok := true |} fuel;
             appends := 0 |}.
Proof.
  intros fuel line.
  apply (produce_overflows MiniJson.dumps MiniJson.loads never no_fault connected
           _ line (MiniJson.dumps (metric "m1")) [] (metric "m1") ["id"; "cpu"]
           (JStr "profiler") eq_refl (fun _ => eq_refl)
           ltac:(vm_compute; reflexivity) ltac:(vm_compute; reflexivity)
           eq_refl ltac:(vm_compute; reflexivity)
           fuel (metric "m2") "monitoring" (JStr "profiler") (fresh (Some line))
           eq_refl ltac:(vm_compute; reflexivity)).
Qed.

(** C3: without a producer, [produce] returns [None] at once and the world
    (spool content and calls made) is what it was. *)
Theorem produce_without_producer_is_noop :
  forall dumps loads send_raises append_fails fuel self data data_type w,
    producer self = None ->
    produce dumps loads send_raises append_fails fuel self data data_type w
    = Ret PyNone w.
Proof.
  intros dumps loads send_raises append_fails fuel self data data_type w H.
  now apply produce_idle.
Qed.

Lemma produce_without_producer_is_noop_witness :
  producer disconnected = None
  /\ produce MiniJson.dumps MiniJson.loads always open_fault 5 disconnected
             (event "e1") "event" (fresh (Some (MiniJson.dumps (metric "m1") +:+ nl)))
     = Ret PyNone (fresh (Some (MiniJson.dumps (metric "m1") +:+ nl))).
Proof.
  split; [reflexivity|].
  apply (produce_without_producer_is_noop MiniJson.dumps MiniJson.loads always open_fault 5
           disconnected (event "e1") "event"
           (fresh (Some (MiniJson.dumps (metric "m1") +:+ nl)))).
  reflexivity.
Defined.

(** C5: every send a replay pass makes carries a dict and goes to the topic
    of the channel that matches its shape, event when the dict has the key
    stackTrace and monitoring otherwise; and a record appended to an empty
    spool is, once read back, the first one the pass sends, on that
    channel. *)
Theorem replay_routes_by_shape :
  forall dumps loads send_raises append_fails fuel self w,
    let new := new_calls w (world_of (_produce_from_local loads
                 (produce dumps loads send_raises append_fails fuel self) w)) in
    Forall (routed self) new
    /\ forall p data w0 w1 loaded ks topic,
         producer self = Some p ->
         text (spool w0) = EmptyString ->
         _write_to_local dumps append_fails data w0 = (PyNone, w1) ->
         spool w = spool w1 ->
         splitlines (dumps data +:+ nl) = [dumps data] ->
         loads (dumps data) = Some loaded ->
         keys loaded = Some ks ->
         producer_types self !! shape_channel ks = Some topic ->
         exists ok rest,
           new = {| s_topic := topic; s_value := loaded; s_ok := ok |} :: rest.
Proof.
  intros dumps loads send_raises append_fails fuel self w new. subst new.
  split.
  - destruct (pass_routed loads self _ w
                (produce_routes dumps loads send_raises append_fails self fuel))
      as (new & E & F).
    now rewrite (calls_app_new _ _ _ E).
  - intros p data w0 w1 loaded ks topic Hp Hempty Hwrite Hspool Hline Hloads Hks Htopic.
    assert (Hs : spool w = Some (dumps data +:+ nl)).
    { rewrite Hspool.
      destruct (write_done _ _ _ _ _ Hwrite) as (_ & -> & _). now rewrite Hempty. }
    unfold _produce_from_local. rewrite Hs, Hline. simpl. rewrite Hloads, Hks.
    set (k := produce dumps loads send_raises append_fails fuel self).
    assert (E : (if contains "stackTrace" ks then k loaded "event" w
                 else k loaded "monitoring" w) = k loaded (shape_channel ks) w).
    { unfold shape_channel. now destruct (contains "stackTrace" ks). }
    rewrite E.
    destruct (produce_first_call dumps loads send_raises append_fails self fuel p
                loaded (shape_channel ks) topic w Hp Htopic) as [more C].
    fold k in C.
    exists (negb (send_raises (length (calls w)))), more.
    apply calls_app_new.
    destruct (k loaded (shape_channel ks) w) as [r w2|e w2|w2]; simpl in *;
      [exact C | destruct e; exact C | exact C].
Qed.

Lemma replay_routes_by_shape_witness :
  let w0 := fresh None in
  let w1 := snd (_write_to_local MiniJson.dumps no_fault (event "e1") w0) in
  let new := new_calls w1 (world_of (_produce_from_local MiniJson.loads
               (produce MiniJson.dumps MiniJson.loads (at_call 0) no_fault 3 connected) w1)) in
  (producer connected <> None
   /\ text (spool w0) = EmptyString
   /\ _write_to_local MiniJson.dumps no_fault (event "e1") w0 = (PyNone, w1)
   /\ splitlines (MiniJson.dumps (event "e1") +:+ nl) = [MiniJson.dumps (event "e1")]
   /\ MiniJson.loads (MiniJson.dumps (event "e1")) = Some (event "e1")
   /\ keys (event "e1") = Some ["id"; "stackTrace"]
   /\ producer_types connected !! shape_channel ["id"; "stackTrace"] = Some (JStr "events"))
  /\ Forall (routed connected) new
  /\ exists ok rest,
       new = {| s_topic := JStr "events"; s_value := event "e1"; s_ok := ok |} :: rest.
Proof.
  intros w0 w1 new.
  split.
  { repeat split; try (vm_compute; reflexivity). discriminate. }
  pose proof (replay_routes_by_shape MiniJson.dumps MiniJson.loads (at_call 0) no_fault 3
                connected w1) as [Hall Hfirst].
  split; [exact Hall|].
  eapply (Hfirst _ (event "e1") w0 w1 (event "e1") ["id"; "stackTrace"] (JStr "events"));
    vm_compute; reflexivity.
Defined.

(** C6, at the input where the code departs from it: A and then B are
    appended to an empty spool, and the broker accepts every send.  The
    claim wants the pass to forward A and then B.  The send of A succeeds,
    so that [produce] starts a pass of its own over the same two lines,
    which sends A again, and so on until the call stack is exhausted: for
    every depth [fuel] of the call stack A has been sent [fuel + 1] times
    and B not once. *)
Theorem replay_never_reaches_second_record :
  forall fuel,
    let A := metric "a" in
    let B := event "b" in
    let w1 := snd (_write_to_local MiniJson.dumps no_fault A (fresh None)) in
    let w2 := snd (_write_to_local MiniJson.dumps no_fault B w1) in
    let out := _produce_from_local MiniJson.loads
                 (produce MiniJson.dumps MiniJson.loads never no_fault fuel connected) w2 in
    splitlines (text (spool w2)) = [MiniJson.dumps A; MiniJson.dumps B]
    /\ MiniJson.loads (MiniJson.dumps B) = Some B
    /\ out = Overflow
               {| spool := spool w2;
                  calls := repeat {| s_topic := JStr "profiler"; s_value := A; s_ok := true |}
                                  (S fuel);
                  appends := 2 |}
    /\ Forall (fun s => s_value s <> B) (calls (world_of out)).
Proof.
  intros fuel A B w1 w2 out.
  assert (Hlines : splitlines (text (spool w2)) = [MiniJson.dumps A; MiniJson.dumps B])
    by (vm_compute; reflexivity).
  assert (Hout : out = Overflow
                         {| spool := spool w2;
                            calls := repeat {| s_topic := JStr "profiler"; s_value := A;
                                               s_ok := true |} (S fuel);
                            appends := 2 |}).
  { subst out. unfold _produce_from_local.
    change (spool w2) with (Some (text (spool w2))). cbv iota beta.
    rewrite Hlines. cbn [replay_lines].
    change (MiniJson.loads (MiniJson.dumps A)) with (Some A).
    change (keys A) with (Some ["id"; "cpu"]).
    change (contains "stackTrace" ["id"; "cpu"]) with false. cbv iota.
    rewrite (produce_overflows MiniJson.dumps MiniJson.loads never no_fault connected
               _ (text (spool w2)) (MiniJson.dumps A) [MiniJson.dumps B] A ["id"; "cpu"]
               (JStr "profiler") eq_refl (fun _ => eq_refl) Hlines
               ltac:(vm_compute; reflexivity) eq_refl ltac:(vm_compute; reflexivity)
               fuel A "monitoring" (JStr "profiler") w2
               ltac:(vm_compute; reflexivity) ltac:(vm_compute; reflexivity)).
    reflexivity. }
  split; [exact Hlines|]. split; [vm_compute; reflexivity|]. split; [exact Hout|].
  rewrite Hout. cbn [world_of calls]. generalize (S fuel) as n.
  intros n. induction n as [|n IH]; simpl; constructor; [discriminate | exact IH].
Qed.




(** C9: when the append raises [IOError], [_write_to_local] returns [False]
    and the calls do not change; the spool is as it was when [open] raised,
    and has otherwise gained a leading part of the line.  When the append
    does not raise, the result is [None], which is not [False], and the
    spool has gained the line.  And [produce], its only caller, drops the
    [False]: after a send that raised and an append that raised it returns
    [None], having made that one send and that one attempt to append, and
    leaves the spool as the failed append left it. *)
Theorem write_to_local_reports_failure :
  forall dumps loads send_raises append_fails data w,
    let res := _write_to_local dumps append_fails data w in
    (forall fault,
        append_fails (appends w) = Some fault ->
        fst res = PyFalse /\ calls (snd res) = calls w
        /\ (fault = AtOpen -> spool (snd res) = spool w)
        /\ exists reached,
             text (spool (snd res))
             = text (spool w) +:+ String.substring 0 reached (dumps data +:+ nl))
    /\ (append_fails (appends w) = None ->
        fst res = PyNone /\ fst res <> PyFalse
        /\ spool (snd res) = Some (text (spool w) +:+ dumps data +:+ nl))
    /\ (forall fuel self p topic data_type fault,
          producer self = Some p ->
          producer_types self !! data_type = Some topic ->
          send_raises (length (calls w)) = true ->
          append_fails (appends w) = Some fault ->
          exists w',
            produce dumps loads send_raises append_fails fuel self data data_type w
            = Ret PyNone w'
            /\ spool w' = spool (snd res)
            /\ calls w' = calls w ++ [{| s_topic := topic; s_value := data; s_ok := false |}]
            /\ appends w' = S (appends w)).
Proof.
  intros dumps loads send_raises append_fails data w res. subst res.
  unfold _write_to_local. split; [|split].
  - intros fault ->. destruct fault as [|reached]; simpl.
    + repeat split. exists 0. now rewrite substring_empty, append_nil_r.
    + repeat split; [discriminate|]. now exists reached.
  - intros ->. simpl. repeat split. discriminate.
  - intros fuel self p topic data_type fault Hp Ht Hsend Happend.
    destruct fuel; simpl; rewrite Hp, Ht, Hsend; simpl;
      unfold _write_to_local; simpl; rewrite Happend; destruct fault; simpl;
      (eexists; split; [reflexivity | now repeat split]).
Qed.

Lemma write_to_local_reports_failure_witness :
  let w := fresh (Some (MiniJson.dumps (metric "m0") +:+ nl)) in
  let line := MiniJson.dumps (metric "m1") +:+ nl in
  let failed := _write_to_local MiniJson.dumps (cut_fault 8) (metric "m1") w in
  let written := _write_to_local MiniJson.dumps no_fault (metric "m1") w in
  (cut_fault 8 (appends w) = Some (AtWrite 8) /\ no_fault (appends w) = None)
  /\ (fst failed = PyFalse /\ calls (snd failed) = calls w
      /\ exists reached,
           text (spool (snd failed)) = text (spool w) +:+ String.substring 0 reached line)
  /\ (fst written = PyNone /\ fst written <> PyFalse
      /\ spool (snd written) = Some (text (spool w) +:+ line)).
Proof.
  intros w line failed written. split; [split; reflexivity|]. split.
  - destruct (write_to_local_reports_failure MiniJson.dumps MiniJson.loads always
                (cut_fault 8) (metric "m1") w) as [Hfailed _].
    destruct (Hfailed (AtWrite 8) eq_refl) as (Hres & Hcalls & _ & Hspool).
    split; [exact Hres|]. split; [exact Hcalls | exact Hspool].
  - apply (write_to_local_reports_failure MiniJson.dumps MiniJson.loads always no_fault
             (metric "m1") w). reflexivity.
Defined.

(** ** Facts about the bootstrap *)

Example boot_online :
  exists self d,
    boot online = Ok self d
    /\ producer self <> None
    /\ producer_types self = topics
    /\ commit_hash self = PStr "abc123"
    /\ abs_path self = PStr "/srv/app/"
    /\ files d !! "tmp/ck_cert.pem" = Some "CERT"
    /\ "tmp" ∈ dirs d.
Proof.
  eexists _, _. split; [vm_compute; reflexivity|].
  repeat split; try (vm_compute; reflexivity); discriminate.
Qed.

Lemma length_cons_append (c : ascii) (a s : string) : String c (a +:+ s) <> s.
Proof.
  intros E. apply (f_equal String.length) in E. simpl in E.
  rewrite length_append in E. lia.
Qed.

Lemma append_inj_r (a b s : string) : a +:+ s = b +:+ s -> a = b.
Proof.
  revert b. induction a as [|x a IH]; intros [|y b] E.
  - reflexivity.
  - symmetry in E. rewrite append_cons in E. now apply length_cons_append in E.
  - rewrite append_cons in E. now apply length_cons_append in E.
  - rewrite !append_cons in E. injection E as -> E. now rewrite (IH b E).
Qed.

Lemma cert_path_inj (n m : string) : cert_path n = cert_path m -> n = m.
Proof.
  unfold cert_path. intros E. apply String.app_inj in E. now apply append_inj_r in E.
Qed.

Lemma dict_get_elem {A} (key : string) (v : A) (items : list (string * A)) :
  (key, v) ∈ items -> is_Some (dict_get key items).
Proof.
  induction items as [|[k x] items IH]; intros Hin; [now apply elem_of_nil in Hin|].
  simpl. destruct (dict_get key items) as [v'|]; [eauto|].
  apply elem_of_cons in Hin as [[= <- <-] | Hin].
  - rewrite String.eqb_refl. eauto.
  - destruct (IH Hin) as [? ?]. discriminate.
Qed.

Lemma dict_get_absent {A} (key : string) (items : list (string * A)) :
  key ∉ items.*1 -> dict_get key items = None.
Proof.
  induction items as [|[k x] items IH]; intros Hnot; [reflexivity|].
  simpl in *. apply not_elem_of_cons in Hnot as [Hne Hnot].
  rewrite (IH Hnot). destruct (String.eqb k key) eqn:E; [|reflexivity].
  apply String.eqb_eq in E. congruence.
Qed.


Section BootstrapFacts.

Variable loads : string -> option Json.
Variable h : Host.

Lemma create_file_disk filename d :
  files (disk_of (_create_file h filename d)) = files d.
Proof.
  unfold _create_file. destruct (path_exists h (dirname filename) d); [reflexivity|].
  now destruct (makedirs h (dirname filename)).
Qed.

Lemma create_file_files filename d r d' :
  _create_file h filename d = Ok r d' -> files d' = files d.
Proof. intros E. pose proof (create_file_disk filename d) as F. now rewrite E in F. Qed.


(** The loop over the archive touches no file but those of the listed
    entries, however it ends. *)
Lemma write_entries_frame mlz filelist :
  forall opened d file,
    file ∉ cert_file h <$> filelist ->
    files (disk_of (write_entries h mlz filelist opened d)) !! file = files d !! file.
Proof.
  induction filelist as [|[n c] rest IH]; intros opened d file Hfile; [reflexivity|].
  simpl in Hfile. apply not_elem_of_cons in Hfile as [Hne Hrest].
  unfold cert_file in Hne. simpl in Hne. simpl.
  pose proof (create_file_disk (cert_path n) d) as Hc.
  destruct (_create_file h (cert_path n) d) as [r1 d1|e d1]; simpl in Hc;
    [|simpl; now rewrite Hc].
  assert (Hw : forall data,
             files (write_file (realpath h (cert_path n)) data d1) !! file
             = files d !! file)
    by (intros data; simpl; rewrite lookup_insert_ne by congruence; now rewrite Hc).
  destruct (wb h (cert_path n)) as [| |reached|reached];
    [|simpl; now rewrite Hc| |];
    (destruct (dict_get n mlz) as [content|]; [|simpl; apply Hw]);
    try (rewrite IH by exact Hrest; apply Hw).
  simpl. apply Hw.
Qed.


End BootstrapFacts.

(** ** The properties of the bootstrap *)

(** C4, the inputs that refute it as stated: when the configuration
    cannot be fetched, and when only the certificates cannot be fetched,
    [__init__] raises [URLError] to its caller and no client exists. *)
Lemma fetch_failures_raise :
  boot (with_network_down online) = Err URLError empty_disk
  /\ exists d, boot (with_certs_down online) = Err URLError d.
Proof. split; [vm_compute; reflexivity | eexists; vm_compute; reflexivity]. Qed.

(** C4, amended: of the three failures only that of constructing the
    producer is absorbed.  A construction that completes has fetched both
    the configuration and the certificates; and wherever it completes, it
    also completes, on the same disk, when the broker cannot be reached,
    with a client that has no producer and on which every [produce] is a
    no-op. *)
Theorem broker_failure_disables_delivery :
  forall loads h apikey app_id base_url mac_hash d self d',
    __init__ loads h apikey app_id base_url mac_hash d = Ok self d' ->
    let blank := new_client apikey app_id base_url in
    (exists body, urlopen h (with_auth blank "private/devices/config/") = Body body)
    /\ (exists body,
          urlopen h (with_auth blank "private/devices/certificates/") = Body body
          \/ exists location,
               urlopen h (with_auth blank "private/devices/certificates/")
               = HTTPErrorAt location
               /\ urlopen h {| url := location; authorization := None |} = Body body)
    /\ __init__ loads (with_broker_down h) apikey app_id base_url mac_hash d
       = Ok (set_producer None self) d'
    /\ forall dumps loads' send_raises append_fails fuel data data_type w,
         produce dumps loads' send_raises append_fails fuel (set_producer None self)
                 data data_type w
         = Ret PyNone w.
Proof.
  intros loads h apikey app_id base_url mac_hash d self d' H blank.
  unfold __init__ in *. fold blank in H. fold blank.
  change (_get_kafka_brokers loads (with_broker_down h)) with (_get_kafka_brokers loads h).
  change (_create_file (with_broker_down h)) with (_create_file h).
  change (get_commit_hash (with_broker_down h)) with (get_commit_hash h).
  change (_get_kafka_certs (with_broker_down h)) with (_get_kafka_certs h).
  assert (Hconfig : exists body,
             urlopen h (with_auth blank "private/devices/config/") = Body body).
  { unfold _get_kafka_brokers in H.
    destruct (urlopen h (with_auth blank "private/devices/config/")); eauto; discriminate. }
  destruct (_get_kafka_brokers loads h blank) as [e|self1] eqn:Hb; [discriminate|].
  destruct (_create_file h offline_fliename d) as [r1 d1|] eqn:Hc; [|discriminate].
  destruct (unpack2 (get_commit_hash h)) as [[commit path]|]; [|discriminate].
  set (self2 := set_identity mac_hash commit path self1) in *.
  assert (Hself : with_auth self2 "private/devices/certificates/"
                  = with_auth blank "private/devices/certificates/").
  { unfold _get_kafka_brokers in Hb.
    destruct (urlopen h (with_auth blank "private/devices/config/")); try discriminate.
    destruct (loads data); [|discriminate].
    repeat match type of Hb with
           | match getitem ?j ?key with _ => _ end = _ => destruct (getitem j key)
           end; try discriminate.
    now injection Hb as <-. }
  assert (Hcerts : exists body,
             urlopen h (with_auth blank "private/devices/certificates/") = Body body
             \/ exists location,
                  urlopen h (with_auth blank "private/devices/certificates/")
                  = HTTPErrorAt location
                  /\ urlopen h {| url := location; authorization := None |} = Body body).
  { destruct (_get_kafka_certs h self2 d1) as [r2 d2|] eqn:Hk; [|discriminate].
    unfold _get_kafka_certs in Hk. rewrite Hself in Hk.
    destruct (urlopen h (with_auth blank "private/devices/certificates/"))
      as [body|location|] eqn:Hu; [eauto| |discriminate].
    destruct (urlopen h {| url := location; authorization := None |})
      as [body| |] eqn:Hu2; [|discriminate|discriminate].
    exists body. right. eauto. }
  split; [exact Hconfig|]. split; [exact Hcerts|].
  destruct (_get_kafka_certs h self2 d1) as [certs d2|]; [|discriminate].
  assert (Hnone : producer self2 = None).
  { unfold _get_kafka_brokers in Hb.
    destruct (urlopen h (with_auth blank "private/devices/config/")); try discriminate.
    destruct (loads data); [|discriminate].
    repeat match type of Hb with
           | match getitem ?j ?key with _ => _ end = _ => destruct (getitem j key)
           end; try discriminate.
    now injection Hb as <-. }
  assert (Hsame : set_producer None self2 = self2).
  { destruct self2; simpl in *. now subst. }
  split.
  - destruct certs; simpl.
    + destruct (broker_down h (producer_config self2)); injection H as <- <-;
        f_equal; symmetry; [exact Hsame|].
      transitivity (set_producer None self2); [reflexivity | exact Hsame].
    + injection H as <- <-. now rewrite Hsame.
  - intros. now apply produce_idle.
Qed.

Lemma broker_failure_disables_delivery_witness :
  (exists self d, boot online = Ok self d /\ producer self <> None)
  /\ exists self d,
       boot (with_broker_down online) = Ok self d
       /\ producer self = None
       /\ produce MiniJson.dumps MiniJson.loads never no_fault 4 self
                  (metric "m1") "monitoring" (fresh None)
          = Ret PyNone (fresh None).
Proof.
  assert (Hboot : exists self d, boot online = Ok self d /\ producer self <> None).
  { eexists _, _. split; [vm_compute; reflexivity | discriminate]. }
  split; [exact Hboot|].
  destruct Hboot as (self & d & Hok & _).
  destruct (broker_failure_disables_delivery MiniJson.loads online
              "key" "app" "https://api.auklet.io/" "mac" empty_disk self d Hok)
    as (_ & _ & Hdown & Hidle).
  exists (set_producer None self), d.
  split; [exact Hdown|]. split; [reflexivity|]. apply Hidle.
Defined.




(** C10: when [.auklet/version] cannot be read, [get_commit_hash] returns
    the empty string, which does not unpack into two names, and [__init__]
    ends in an exception whatever the rest of the host does: [ValueError]
    from the unpacking as soon as the configuration was fetched and the
    spool directory exists or was made. *)
Theorem missing_version_file_fails_init :
  forall loads h apikey app_id base_url mac_hash d,
    version_file h = None ->
    get_commit_hash h = PStr EmptyString
    /\ unpack2 (get_commit_hash h) = None
    /\ (exists e d', __init__ loads h apikey app_id base_url mac_hash d = Err e d')
    /\ (forall self r d1,
          _get_kafka_brokers loads h (new_client apikey app_id base_url) = inr self ->
          _create_file h offline_fliename d = Ok r d1 ->
          __init__ loads h apikey app_id base_url mac_hash d = Err ValueError d1).
Proof.
  intros loads h apikey app_id base_url mac_hash d Hv.
  assert (Hget : get_commit_hash h = PStr EmptyString)
    by (unfold get_commit_hash; now rewrite Hv).
  split; [exact Hget|]. split; [now rewrite Hget|].
  unfold __init__. rewrite Hget. simpl. split.
  - destruct (_get_kafka_brokers loads h _) as [e|self]; [eauto|].
    destruct (_create_file h offline_fliename d) as [r d1|e d1]; eauto.
  - intros self r d1 -> ->. reflexivity.
Qed.

Lemma missing_version_file_fails_init_witness :
  version_file (without_version online) = None
  /\ get_commit_hash (without_version online) = PStr EmptyString
  /\ exists d, boot (without_version online) = Err ValueError d.
Proof.
  split; [reflexivity|].
  destruct (missing_version_file_fails_init MiniJson.loads (without_version online)
              "key" "app" "https://api.auklet.io/" "mac" empty_disk eq_refl)
    as (Hget & _ & _ & Hinit).
  split; [exact Hget|].
  eexists. eapply Hinit; vm_compute; reflexivity.
Defined.

(** * Further properties *)

(** ** Delivery *)

Section DeliveryMore.

Variable dumps : Json -> string.
Variable loads : string -> option Json.
Variable send_raises : nat -> bool.
Variable append_fails : nat -> option Fault.
Variable self : Client.

Local Abbreviation lines' := (replay_lines loads).
Local Abbreviation pass' := (_produce_from_local loads).
Local Abbreviation produce' := (produce dumps loads send_raises append_fails).

(** With topics for the two channels of the replay, what the loop and the
    pass raise is what reading a spool line raises. *)
Hypothesis has_event : is_Some (producer_types self !! "event").
Hypothesis has_monitoring : is_Some (producer_types self !! "monitoring").

Lemma lines_line_error k (lines : list string) :
  (forall d w e w', k d "event" w = Raise e w' -> line_error e) ->
  (forall d w e w', k d "monitoring" w = Raise e w' -> line_error e) ->
  forall w e w', lines' k lines w = Raise e w' -> line_error e.
Proof.
  intros He Hm. induction lines as [|line rest IH]; intros w e w'; simpl; [discriminate|].
  destruct (loads line) as [loaded|]; [|intros [= <- _]; now left].
  destruct (keys loaded) as [ks|]; [|intros [= <- _]; now right].
  destruct (contains "stackTrace" ks).
  - destruct (k loaded "event" w) as [r w1|e1 w1|w1] eqn:E; try discriminate.
    + apply IH.
    + intros [= <- _]. eapply He, E.
  - destruct (k loaded "monitoring" w) as [r w1|e1 w1|w1] eqn:E; try discriminate.
    + apply IH.
    + intros [= <- _]. eapply Hm, E.
Qed.

Lemma produce_line_error (fuel : nat) :
  forall data data_type w e w',
    is_Some (producer_types self !! data_type) ->
    produce' fuel self data data_type w = Raise e w' -> line_error e.
Proof.
  induction fuel as [|fuel IH]; intros data data_type w e w' [topic Ht]; simpl;
    (destruct (producer self) as [p|]; [|discriminate]); rewrite Ht;
    (destruct (negb (send_raises (length (calls w)))); simpl; [|discriminate]);
    [discriminate|].
  set (w1 := {| spool := spool w;
                calls := calls w ++ [{| s_topic := topic; s_value := data; s_ok := true |}];
                appends := appends w |}).
  unfold _produce_from_local. destruct (spool w1) as [content|]; [|discriminate].
  pose proof (lines_line_error (produce' fuel self) (splitlines content)
                (fun d w0 e0 w0' => IH d "event" w0 e0 w0' has_event)
                (fun d w0 e0 w0' => IH d "monitoring" w0 e0 w0' has_monitoring) w1) as L.
  destruct (lines' (produce' fuel self) (splitlines content) w1) as [r w2|e2 w2|w2];
    try discriminate.
  specialize (L e2 w2 eq_refl).
  destruct e2; try discriminate; destruct L as [L | L]; try discriminate L;
    intros [= <- _]; [now left | now right].
Qed.

End DeliveryMore.

(** X1: whatever a call of [produce] does and however it ends, the spool
    keeps the text it had, at its head: the file, once there, stays, and
    what it held is neither removed nor rewritten. *)
Theorem produce_keeps_spooled_text :
  forall dumps loads send_raises append_fails fuel self data data_type w,
    let w' := world_of (produce dumps loads send_raises append_fails
                                fuel self data data_type w) in
    (exists more, text (spool w') = text (spool w) +:+ more)
    /\ (is_Some (spool w) -> is_Some (spool w')).
Proof.
  intros dumps loads send_raises append_fails fuel self data data_type w w'.
  destruct (produce_grown dumps loads send_raises append_fails fuel self data data_type w)
    as [E | [more E]]; fold w' in E; rewrite E.
  - split; [exists EmptyString; now rewrite append_nil_r | auto].
  - split; [now exists more | eauto].
Qed.

(** X2: a replay pass that returns leaves the spool exactly as it found
    it, and so does a call of [produce] whose send succeeded and which
    returns: no replayed record leaves the spool. *)
Theorem returning_replay_keeps_spool :
  forall dumps loads send_raises append_fails fuel self,
    (forall w r w',
        _produce_from_local loads
          (produce dumps loads send_raises append_fails fuel self) w = Ret r w' ->
        spool w' = spool w)
    /\ (forall data data_type w r w',
          send_raises (length (calls w)) = false ->
          produce dumps loads send_raises append_fails fuel self data data_type w
          = Ret r w' ->
          spool w' = spool w).
Proof.
  intros dumps loads send_raises append_fails fuel self. split.
  - intros w r w'. apply replay_keeps_spool.
  - intros data data_type w r w' Hok.
    destruct fuel as [|fuel]; simpl;
      (destruct (producer self) as [p|]; [|now intros [= _ <-]]);
      (destruct (producer_types self !! data_type) as [topic|]; [|discriminate]);
      rewrite Hok; simpl; [discriminate|].
    set (w1 := {| spool := spool w;
                  calls := calls w ++ [{| s_topic := topic; s_value := data; s_ok := true |}];
                  appends := appends w |}).
    pose proof (replay_keeps_spool dumps loads send_raises append_fails fuel self w1) as K.
    pose proof (pass_raises loads (produce dumps loads send_raises append_fails fuel self)
                  (fun d t w0 => produce_raises dumps loads send_raises append_fails
                                   fuel self d t w0) w1) as R.
    destruct (_produce_from_local loads _ w1) as [r2 w2|e w2|w2].
    + intros [= _ <-]. apply (K r2 w2 eq_refl).
    + destruct (R e w2 eq_refl) as [R1 R2]. destruct e; congruence.
    + discriminate.
Qed.

Lemma returning_replay_keeps_spool_witness :
  let line := MiniJson.dumps (event "e1") +:+ nl in
  let w := fresh (Some line) in
  let out := produce MiniJson.dumps MiniJson.loads (at_call 1) no_fault 2 connected
                     (metric "m2") "monitoring" w in
  at_call 1 (length (calls w)) = false
  /\ returns out = true
  /\ length (calls (world_of out)) = 2
  /\ spool (world_of out) = Some line.
Proof.
  intros line w out.
  assert (Hout : exists w', out = Ret PyNone w') by (eexists; vm_compute; reflexivity).
  destruct Hout as [w' Hout].
  split; [reflexivity|]. split; [now rewrite Hout|].
  split; [vm_compute; reflexivity|].
  rewrite Hout. simpl.
  destruct (returning_replay_keeps_spool MiniJson.dumps MiniJson.loads (at_call 1) no_fault 2
              connected) as [_ Hproduce].
  apply (Hproduce (metric "m2") "monitoring" w PyNone w' eq_refl Hout).
Defined.

(** X3: while no append is cut short by an error of a write (each is
    written whole, or fails when the file is opened), the spool stays a
    sequence of whole lines: if its text is empty or ends with a line feed
    before a call of [produce], it is so after the call, however the call
    ends. *)
Theorem produce_keeps_whole_lines :
  forall dumps loads send_raises append_fails fuel self data data_type w,
    (forall n reached, append_fails n <> Some (AtWrite reached)) ->
    closed_text (text (spool w)) = true ->
    closed_text (text (spool (world_of
      (produce dumps loads send_raises append_fails fuel self data data_type w)))) = true.
Proof. intros. now apply produce_closed. Qed.

Lemma produce_keeps_whole_lines_witness :
  let w := fresh (Some (MiniJson.dumps (metric "m0") +:+ nl)) in
  let w' := world_of (produce MiniJson.dumps MiniJson.loads always no_fault 2 connected
                              (event "e1") "event" w) in
  let cut := world_of (produce MiniJson.dumps MiniJson.loads always (cut_fault 8) 2
                               connected (event "e1") "event" w) in
  closed_text (text (spool w)) = true
  /\ closed_text (text (spool w')) = true
  /\ splitlines (text (spool w'))
     = [MiniJson.dumps (metric "m0"); MiniJson.dumps (event "e1")]
  /\ closed_text (text (spool cut)) = false.
Proof.
  intros w w' cut. split; [vm_compute; reflexivity|].
  split; [|split; vm_compute; reflexivity].
  apply (produce_keeps_whole_lines MiniJson.dumps MiniJson.loads always no_fault 2 connected
           (event "e1") "event" w).
  - intros n reached. discriminate.
  - vm_compute. reflexivity.
Defined.

(** X4: on a client whose topics include those of the event and monitoring
    channels, a call of [produce] on a channel that has a topic ends in
    one of three ways: it returns [None]; it raises the [ValueError] or the
    [AttributeError] of reading back a spool line that is not a JSON
    object; or it exhausts the call stack ([RecursionError]) in a replay
    that re-enters itself.  [KafkaError], [IOError] and [KeyError] do not
    reach the caller. *)
Theorem produce_raises_only_on_bad_line :
  forall dumps loads send_raises append_fails fuel self data data_type w,
    is_Some (producer_types self !! "event") ->
    is_Some (producer_types self !! "monitoring") ->
    is_Some (producer_types self !! data_type) ->
    let out := produce dumps loads send_raises append_fails fuel self data data_type w in
    (exists w', out = Ret PyNone w')
    \/ (exists e w', out = Raise e w' /\ (e = ValueError \/ e = AttributeError))
    \/ (exists w', out = Overflow w').
Proof.
  intros dumps loads send_raises append_fails fuel self data data_type w He Hm Ht out.
  subst out.
  destruct (produce dumps loads send_raises append_fails fuel self data data_type w)
    as [r w'|e w'|w'] eqn:H.
  - left. exists w'. now rewrite (produce_ret_none _ _ _ _ _ _ _ _ _ _ _ H).
  - right. left. exists e, w'. split; [reflexivity|].
    exact (produce_line_error dumps loads send_raises append_fails self He Hm fuel
             data data_type w e w' Ht H).
  - right. right. now exists w'.
Qed.

Lemma produce_raises_only_on_bad_line_witness :
  let w := fresh (Some ("[1, 2]" +:+ nl)) in
  let out := produce MiniJson.dumps MiniJson.loads never no_fault 3 connected
                     (metric "m1") "log" w in
  (is_Some (producer_types connected !! "event")
   /\ is_Some (producer_types connected !! "monitoring")
   /\ is_Some (producer_types connected !! "log"))
  /\ exists w', out = Raise AttributeError w'.
Proof.
  intros w out.
  assert (Hall : is_Some (producer_types connected !! "event")
                 /\ is_Some (producer_types connected !! "monitoring")
                 /\ is_Some (producer_types connected !! "log"))
    by (repeat split; eexists; vm_compute; reflexivity).
  split; [exact Hall|]. destruct Hall as (He & Hm & Hl).
  assert (Hout : exists e w', out = Raise e w' /\ e <> ValueError).
  { eexists _, _. split; [vm_compute; reflexivity | discriminate]. }
  destruct Hout as (e & w' & Hout & Hne). exists w'.
  destruct (produce_raises_only_on_bad_line MiniJson.dumps MiniJson.loads never no_fault 3
              connected (metric "m1") "log" w He Hm Hl)
    as [(w1 & H1) | [(e1 & w1 & H1 & Hline) | (w1 & H1)]];
    fold out in H1; rewrite Hout in H1; try discriminate.
  injection H1 as -> _. destruct Hline as [-> | ->]; [contradiction | exact Hout].
Defined.

(** X5: with a producer and a topic for the channel, the first send of a
    call of [produce] is the send of its own record on that topic; what the
    replay sends comes after it. *)
Theorem produce_sends_own_record_first :
  forall dumps loads send_raises append_fails fuel self p data data_type topic w,
    producer self = Some p ->
    producer_types self !! data_type = Some topic ->
    exists more,
      new_calls w (world_of (produce dumps loads send_raises append_fails
                                     fuel self data data_type w))
      = {| s_topic := topic; s_value := data;
           s_ok := negb (send_raises (length (calls w))) |} :: more.
Proof.
  intros dumps loads send_raises append_fails fuel self p data data_type topic w Hp Ht.
  destruct (produce_first_call dumps loads send_raises append_fails self fuel p
              data data_type topic w Hp Ht) as [more E].
  exists more. now apply calls_app_new.
Qed.

Lemma produce_sends_own_record_first_witness :
  let w := fresh (Some (MiniJson.dumps (event "e1") +:+ nl)) in
  let new := new_calls w (world_of (produce MiniJson.dumps MiniJson.loads (at_call 1) no_fault
                                            2 connected (metric "m2") "monitoring" w)) in
  (producer connected <> None
   /\ producer_types connected !! "monitoring" = Some (JStr "profiler"))
  /\ new = [ {| s_topic := JStr "profiler"; s_value := metric "m2"; s_ok := true |};
             {| s_topic := JStr "events"; s_value := event "e1"; s_ok := false |} ]
  /\ exists more,
       new = {| s_topic := JStr "profiler"; s_value := metric "m2"; s_ok := true |} :: more.
Proof.
  intros w new. split; [split; [discriminate | reflexivity]|].
  split; [vm_compute; reflexivity|].
  apply (produce_sends_own_record_first MiniJson.dumps MiniJson.loads (at_call 1) no_fault 2
           connected _ (metric "m2") "monitoring" (JStr "profiler") w eq_refl eq_refl).
Defined.

(** X6: on a spool that is missing or empty, a call of [produce] whose send
    succeeds (with room for one replay pass) returns after that one send;
    it writes nothing and does not create the file. *)
Theorem produce_on_empty_spool :
  forall dumps loads send_raises append_fails fuel self p data data_type topic w,
    producer self = Some p ->
    producer_types self !! data_type = Some topic ->
    send_raises (length (calls w)) = false ->
    text (spool w) = EmptyString ->
    produce dumps loads send_raises append_fails (S fuel) self data data_type w
    = Ret PyNone
          {| spool := spool w;
             calls := calls w ++ [{| s_topic := topic; s_value := data; s_ok := true |}];
             appends := appends w |}.
Proof.
  intros dumps loads send_raises append_fails fuel self p data data_type topic w
         Hp Ht Hok Hempty.
  simpl. rewrite Hp, Ht, Hok. simpl. unfold _produce_from_local. simpl.
  destruct (spool w) as [content|]; [|reflexivity].
  simpl in Hempty. subst content. reflexivity.
Qed.

Lemma produce_on_empty_spool_witness :
  let w := fresh None in
  (producer connected <> None
   /\ producer_types connected !! "log" = Some (JStr "logs")
   /\ never (length (calls w)) = false
   /\ text (spool w) = EmptyString)
  /\ produce MiniJson.dumps MiniJson.loads never open_fault 1 connected (metric "m1") "log" w
     = Ret PyNone
           {| spool := None;
              calls := [{| s_topic := JStr "logs"; s_value := metric "m1"; s_ok := true |}];
              appends := 0 |}.
Proof.
  intros w. split; [repeat split; try reflexivity; discriminate|].
  apply (produce_on_empty_spool MiniJson.dumps MiniJson.loads never open_fault 0 connected _
           (metric "m1") "log" (JStr "logs") w eq_refl eq_refl eq_refl eq_refl).
Defined.

(** X7: a first spool line that is not JSON, or is JSON but no object,
    makes every call of [produce] whose send succeeds raise ([ValueError],
    or [AttributeError]) right after that send: nothing is replayed, and
    the spool is left as it is, so that the next call meets the same
    line. *)
Theorem bad_first_line_blocks_replay :
  forall dumps loads send_raises append_fails fuel self p data data_type topic w
         content line rest e,
    producer self = Some p ->
    producer_types self !! data_type = Some topic ->
    send_raises (length (calls w)) = false ->
    spool w = Some content ->
    splitlines content = line :: rest ->
    (loads line = None /\ e = ValueError)
    \/ (exists loaded, loads line = Some loaded /\ keys loaded = None
                       /\ e = AttributeError) ->
    produce dumps loads send_raises append_fails (S fuel) self data data_type w
    = Raise e
            {| spool := spool w;
               calls := calls w ++ [{| s_topic := topic; s_value := data; s_ok := true |}];
               appends := appends w |}.
Proof.
  intros dumps loads send_raises append_fails fuel self p data data_type topic w
         content line rest e Hp Ht Hok Hs Hlines Hbad.
  simpl. rewrite Hp, Ht, Hok. simpl. unfold _produce_from_local. simpl.
  rewrite Hs, Hlines. simpl.
  destruct Hbad as [[Hl ->] | (loaded & Hl & Hk & ->)]; rewrite Hl; [reflexivity|].
  now rewrite Hk.
Qed.

Lemma bad_first_line_blocks_replay_witness :
  let content := "oops" +:+ nl +:+ MiniJson.dumps (metric "m1") +:+ nl in
  let w := fresh (Some content) in
  (producer connected <> None
   /\ producer_types connected !! "event" = Some (JStr "events")
   /\ never (length (calls w)) = false
   /\ splitlines content = ["oops"; MiniJson.dumps (metric "m1")]
   /\ MiniJson.loads "oops" = None)
  /\ produce MiniJson.dumps MiniJson.loads never no_fault 4 connected (event "e1") "event" w
     = Raise ValueError
             {| spool := Some content;
                calls := [{| s_topic := JStr "events"; s_value := event "e1";
                             s_ok := true |}];
                appends := 0 |}.
Proof.
  intros content w.
  split; [repeat split; try (vm_compute; reflexivity); discriminate|].
  apply (bad_first_line_blocks_replay MiniJson.dumps MiniJson.loads never no_fault 3 connected _
           (event "e1") "event" (JStr "events") w content "oops"
           [MiniJson.dumps (metric "m1")] ValueError eq_refl eq_refl eq_refl eq_refl).
  - vm_compute. reflexivity.
  - left. split; [vm_compute; reflexivity | reflexivity].
Defined.

(** The loop of the replay, when it runs to its end, has forwarded its
    lines one after the other: the calls it made fall into one segment for
    each line, in the order of the lines, and the segment of a line begins
    with the send of the record the line reads as. *)
Lemma lines_forward dumps loads send_raises append_fails fuel self p (lines : list string) :
  producer self = Some p ->
  forall w u w1,
    replay_lines loads (produce dumps loads send_raises append_fails fuel self) lines w
    = Ret u w1 ->
    exists records segments,
      Forall2 (fun line record => loads line = Some record) lines records
      /\ calls w1 = calls w ++ concat segments
      /\ Forall2 (fun record segment =>
                    exists first more, segment = first :: more /\ s_value first = record)
                 records segments.
Proof.
  intros Hp. set (k := produce dumps loads send_raises append_fails fuel self).
  induction lines as [|line rest IH]; intros w u w1; simpl.
  - intros [= _ <-]. exists [], []. split; [constructor|].
    split; [now rewrite app_nil_r | constructor].
  - destruct (loads line) as [loaded|] eqn:Hl; [|discriminate].
    destruct (keys loaded) as [ks|]; [|discriminate].
    assert (E : (if contains "stackTrace" ks then k loaded "event" w
                 else k loaded "monitoring" w) = k loaded (shape_channel ks) w).
    { unfold shape_channel. now destruct (contains "stackTrace" ks). }
    rewrite E.
    destruct (k loaded (shape_channel ks) w) as [r w2|e w2|w2] eqn:Hk; try discriminate.
    intros Hrest. destruct (IH w2 u w1 Hrest) as (records & segments & F1 & C1 & F2).
    destruct (produce_ret_topic dumps loads send_raises append_fails self fuel p
                loaded (shape_channel ks) w r w2 Hp Hk) as [topic Ht].
    destruct (produce_first_call dumps loads send_raises append_fails self fuel p
                loaded (shape_channel ks) topic w Hp Ht) as [more C].
    fold k in C. rewrite Hk in C. simpl in C.
    exists (loaded :: records),
           (({| s_topic := topic; s_value := loaded;
                s_ok := negb (send_raises (length (calls w))) |} :: more) :: segments).
    split; [now constructor|]. split.
    + rewrite C1, C. simpl. now rewrite <- app_assoc.
    + constructor; [eauto | exact F2].
Qed.

(** X27: a replay pass that returns [None] (it returns [False] when the
    spool could not be opened) has forwarded every line of the spool, in
    the order of the lines: every line reads as a record, and the sends
    the pass made fall into one segment for each line, in that order, the
    segment of a line beginning with the send of its record (what follows
    in the segment is what the replay started by that send made). *)
Theorem returning_replay_forwards_in_order :
  forall dumps loads send_raises append_fails fuel self p w w',
    producer self = Some p ->
    _produce_from_local loads (produce dumps loads send_raises append_fails fuel self) w
    = Ret PyNone w' ->
    exists records segments,
      Forall2 (fun line record => loads line = Some record)
              (splitlines (text (spool w))) records
      /\ new_calls w w' = concat segments
      /\ Forall2 (fun record segment =>
                    exists first more, segment = first :: more /\ s_value first = record)
                 records segments.
Proof.
  intros dumps loads send_raises append_fails fuel self p w w' Hp.
  unfold _produce_from_local. destruct (spool w) as [content|]; [|discriminate]. simpl.
  set (k := produce dumps loads send_raises append_fails fuel self).
  destruct (replay_lines loads k (splitlines content) w) as [u w1|e w1|w1] eqn:Hlines.
  - intros [= <-].
    destruct (lines_forward dumps loads send_raises append_fails fuel self p
                (splitlines content) Hp w u w1 Hlines) as (records & segments & F1 & C & F2).
    exists records, segments. split; [exact F1|]. split; [|exact F2].
    now apply calls_app_new.
  - destruct e; discriminate.
  - discriminate.
Qed.

Lemma returning_replay_forwards_in_order_witness :
  let A := metric "a" in
  let B := event "b" in
  let w1 := snd (_write_to_local MiniJson.dumps no_fault A (fresh None)) in
  let w2 := snd (_write_to_local MiniJson.dumps no_fault B w1) in
  let out := _produce_from_local MiniJson.loads
               (produce MiniJson.dumps MiniJson.loads always no_fault 3 connected) w2 in
  (exists w', out = Ret PyNone w')
  /\ new_calls w2 (world_of out)
     = [ {| s_topic := JStr "profiler"; s_value := A; s_ok := false |};
         {| s_topic := JStr "events"; s_value := B; s_ok := false |} ]
  /\ exists records segments,
       Forall2 (fun line record => MiniJson.loads line = Some record)
               [MiniJson.dumps A; MiniJson.dumps B] records
       /\ new_calls w2 (world_of out) = concat segments
       /\ Forall2 (fun record segment =>
                     exists first more, segment = first :: more /\ s_value first = record)
                  records segments.
Proof.
  intros A B w1 w2 out.
  assert (Hout : exists w', out = Ret PyNone w') by (eexists; vm_compute; reflexivity).
  destruct Hout as [w' Hout].
  split; [now exists w'|]. split; [vm_compute; reflexivity|].
  rewrite Hout. simpl.
  apply (returning_replay_forwards_in_order MiniJson.dumps MiniJson.loads always no_fault 3
           connected _ w2 w' eq_refl Hout).
Defined.

(** ** Bootstrap *)

Lemma path_exists_made (h : Host) (dir : string) (d : Disk) :
  all_slashes dir = false -> path_exists h dir (add_dirs h (to_make dir) d) = true.
Proof.
  intros H. unfold path_exists, add_dirs, to_make. simpl.
  apply orb_true_iff. left. apply bool_decide_eq_true.
  apply elem_of_union_l, elem_of_list_to_set, list_elem_of_fmap.
  exists dir. split; [reflexivity|]. apply elem_of_reverse.
  destruct dir as [|c dir]; [discriminate|].
  cbn [String.length ancestors]. rewrite H. apply list_elem_of_here.
Qed.

Lemma keeps_paths_refl (h : Host) (d : Disk) : keeps_paths h d d.
Proof. now intros p. Qed.

Lemma keeps_paths_trans (h : Host) (d1 d2 d3 : Disk) :
  keeps_paths h d1 d2 -> keeps_paths h d2 d3 -> keeps_paths h d1 d3.
Proof. intros H12 H23 p Hp. now apply H23, H12. Qed.

Lemma keeps_paths_add_dirs (h : Host) (ps : list string) (d : Disk) :
  keeps_paths h d (add_dirs h ps d).
Proof.
  intros p. unfold path_exists, add_dirs. simpl.
  rewrite !orb_true_iff, !bool_decide_eq_true.
  intros [H | H]; [left; now apply elem_of_union_r | now right].
Qed.

Lemma keeps_paths_write_file (h : Host) (file content : string) (d : Disk) :
  keeps_paths h d (write_file file content d).
Proof.
  intros p. unfold path_exists, write_file. simpl.
  rewrite !orb_true_iff, !bool_decide_eq_true.
  intros [H | H]; [now left | right].
  destruct (decide (file = realpath h p)) as [-> | Hne].
  - rewrite lookup_insert_eq. eauto.
  - now rewrite lookup_insert_ne.
Qed.

Lemma create_file_keeps_paths (h : Host) (filename : string) (d : Disk) :
  keeps_paths h d (disk_of (_create_file h filename d)).
Proof.
  unfold _create_file.
  destruct (path_exists h (dirname filename) d); [apply keeps_paths_refl|].
  destruct (makedirs h (dirname filename)); simpl; apply keeps_paths_add_dirs.
Qed.

Lemma write_entries_keeps (h : Host) (mlz filelist : list (string * string)) :
  forall (f : list (string * string)) d,
    keeps_paths h d (disk_of (write_entries h mlz filelist f d))
    /\ (forall r d', write_entries h mlz filelist f d = Ok r d' -> r = true).
Proof.
  induction filelist as [|[n c] rest IH]; intros f d; simpl.
  { split; [apply keeps_paths_refl | now intros r d' [= <- _]]. }
  pose proof (create_file_keeps_paths h (cert_path n) d) as Hk.
  destruct (_create_file h (cert_path n) d) as [r1 d1|e d1]; simpl in Hk;
    [|split; [exact Hk | discriminate]].
  assert (Hw : forall data,
             keeps_paths h d (write_file (realpath h (cert_path n)) data d1))
    by (intros data; eapply keeps_paths_trans;
        [exact Hk | apply keeps_paths_write_file]).
  assert (Hnext : forall f' data,
             let d2 := write_file (realpath h (cert_path n)) data d1 in
             keeps_paths h d (disk_of (write_entries h mlz rest f' d2))
             /\ (forall r d', write_entries h mlz rest f' d2 = Ok r d' -> r = true)).
  { intros f' data d2. destruct (IH f' d2) as [Hp Hr].
    split; [|exact Hr]. eapply keeps_paths_trans; [apply Hw | exact Hp]. }
  destruct (wb h (cert_path n)) as [| |reached|reached];
    [|split; [exact Hk | discriminate]| |];
    (destruct (dict_get n mlz) as [content|];
     [|split; [apply Hw | discriminate]]);
    try apply Hnext.
  split; [apply Hw | discriminate].
Qed.

Lemma certs_keep (h : Host) (self : Client) (d : Disk) :
  keeps_paths h d (disk_of (_get_kafka_certs h self d))
  /\ (forall file, (forall name, file <> realpath h (cert_path name)) ->
                   files (disk_of (_get_kafka_certs h self d)) !! file = files d !! file)
  /\ (forall r d', _get_kafka_certs h self d = Ok r d' -> r = true).
Proof.
  unfold _get_kafka_certs.
  assert (Hres : forall res : Response,
    let out := match res with
               | Body data =>
                   match ZipFile h data with
                   | Some mlz => write_entries h mlz mlz [] d
                   | None => Err BadZipfile d
                   end
               | HTTPErrorAt _ => Err HTTPError d
               | URLErrorRaised => Err URLError d
               end in
    keeps_paths h d (disk_of out)
    /\ (forall file, (forall name, file <> realpath h (cert_path name)) ->
                     files (disk_of out) !! file = files d !! file)
    /\ (forall r d', out = Ok r d' -> r = true)).
  { intros [data| |]; simpl;
      try (split; [apply keeps_paths_refl|]; split; [reflexivity | discriminate]).
    destruct (ZipFile h data) as [mlz|].
    - destruct (write_entries_keeps h mlz mlz [] d) as [Hp Hr].
      split; [exact Hp|]. split; [|exact Hr].
      intros file Hfile. apply write_entries_frame.
      intros Hin. apply list_elem_of_fmap in Hin as ([n c] & -> & _).
      now apply (Hfile n).
    - split; [apply keeps_paths_refl|]. split; [reflexivity | discriminate]. }
  apply Hres.
Qed.


(** What a construction that completes went through. *)
Lemma brokers_inv (loads : string -> option Json) (h : Host) (self self' : Client) :
  _get_kafka_brokers loads h self = inr self' ->
  exists body kafka_info b prof event log,
    urlopen h (with_auth self "private/devices/config/") = Body body
    /\ loads body = Some kafka_info
    /\ getitem kafka_info "brokers" = inr b
    /\ getitem kafka_info "prof_topic" = inr prof
    /\ getitem kafka_info "event_topic" = inr event
    /\ getitem kafka_info "log_topic" = inr log
    /\ self' = set_brokers b (<["monitoring" := prof]>
                                (<["event" := event]> (<["log" := log]> ∅))) self.
Proof.
  unfold _get_kafka_brokers.
  destruct (urlopen h (with_auth self "private/devices/config/")) as [body| |] eqn:Hu;
    try discriminate.
  destruct (loads body) as [kafka_info|] eqn:Hl; [|discriminate].
  destruct (getitem kafka_info "brokers") as [|b] eqn:H1; [discriminate|].
  destruct (getitem kafka_info "prof_topic") as [|prof] eqn:H2; [discriminate|].
  destruct (getitem kafka_info "event_topic") as [|event] eqn:H3; [discriminate|].
  destruct (getitem kafka_info "log_topic") as [|log] eqn:H4; [discriminate|].
  intros [= <-]. exists body, kafka_info, b, prof, event, log. now repeat split.
Qed.

Lemma init_inv loads h apikey app_id base_url mac_hash d self d' :
  __init__ loads h apikey app_id base_url mac_hash d = Ok self d' ->
  exists self1 r1 d1 content,
    _get_kafka_brokers loads h (new_client apikey app_id base_url) = inr self1
    /\ _create_file h offline_fliename d = Ok r1 d1
    /\ version_file h = Some content
    /\ _get_kafka_certs h
         (set_identity mac_hash (PStr content) (PStr (get_abs_path h ".auklet/version")) self1)
         d1 = Ok true d'
    /\ self = (let self2 := set_identity mac_hash (PStr content)
                              (PStr (get_abs_path h ".auklet/version")) self1 in
               if broker_down h (producer_config self2) then self2
               else set_producer (Some (producer_config self2)) self2).
Proof.
  unfold __init__.
  destruct (_get_kafka_brokers loads h _) as [e|self1] eqn:Hb; [discriminate|].
  destruct (_create_file h offline_fliename d) as [r1 d1|] eqn:Hf; [|discriminate].
  unfold get_commit_hash. destruct (version_file h) as [content|] eqn:Hv; [|discriminate].
  simpl.
  set (self2 := set_identity mac_hash (PStr content)
                  (PStr (get_abs_path h ".auklet/version")) self1).
  destruct (_get_kafka_certs h self2 d1) as [certs d2|] eqn:Hc; [|discriminate].
  pose proof (certs_keep h self2 d1) as (_ & _ & Htrue).
  assert (certs = true) as -> by exact (Htrue certs d2 Hc).
  intros H. exists self1, r1, d1, content.
  split; [reflexivity|]. split; [reflexivity|]. split; [reflexivity|].
  cbv zeta. fold self2.
  destruct (broker_down h (producer_config self2)); injection H as <- <-;
    (split; [exact Hc | reflexivity]).
Qed.

Lemma create_file_directory h filename d r d' :
  _create_file h filename d = Ok r d' ->
  all_slashes (dirname filename) = false ->
  path_exists h (dirname filename) d = true \/ makedirs h (dirname filename) = Made ->
  path_exists h (dirname filename) d' = true.
Proof.
  unfold _create_file. intros H Hdir Hhow.
  destruct (path_exists h (dirname filename) d) eqn:He; [now injection H as _ <-|].
  destruct Hhow as [Hhow | Hhow]; [discriminate|]. rewrite Hhow in H.
  injection H as _ <-. now apply path_exists_made.
Qed.

(** X9: [_create_file] returns only [True], and then has left every file
    as it was and kept every path that existed.  When the directory of the
    file name exists it returns at once, whatever [os.makedirs] would do;
    when it is missing and [os.makedirs] makes it, it exists afterwards,
    so that a second call returns at once: the creation is idempotent.  An
    [EEXIST] of [os.makedirs] is no error, though nothing says that the
    directory is there then.  The method raises only [OSError], with every
    file as it was, when the directory was missing and [os.makedirs]
    failed otherwise. *)
Theorem create_file_makes_directory_once :
  forall h filename d,
    let dir := dirname filename in
    (forall r d',
        _create_file h filename d = Ok r d' ->
        r = true /\ files d' = files d /\ keeps_paths h d d')
    /\ (path_exists h dir d = true ->
        forall h2, realpath h2 = realpath h -> _create_file h2 filename d = Ok true d)
    /\ (path_exists h dir d = false ->
        makedirs h dir = Made ->
        exists d',
          _create_file h filename d = Ok true d'
          /\ (all_slashes dir = false -> path_exists h dir d' = true))
    /\ (path_exists h dir d = false ->
        makedirs h dir = Exists ->
        exists d', _create_file h filename d = Ok true d')
    /\ (forall e d',
          _create_file h filename d = Err e d' ->
          e = OSError /\ files d' = files d /\ keeps_paths h d d'
          /\ path_exists h dir d = false
          /\ exists made, makedirs h dir = Failed made).
Proof.
  intros h filename d dir. split; [|split; [|split; [|split]]].
  - intros r d' H.
    pose proof (create_file_keeps_paths h filename d) as Hk. rewrite H in Hk. simpl in Hk.
    pose proof (create_file_files h filename d r d' H) as Hf.
    split; [|now split].
    unfold _create_file in H. fold dir in H.
    destruct (path_exists h dir d); [now injection H as <- _|].
    destruct (makedirs h dir); try discriminate; now injection H as <- _.
  - intros He h2 Hsame. unfold _create_file. fold dir.
    assert (Hp : path_exists h2 dir d = path_exists h dir d)
      by (unfold path_exists; now rewrite Hsame).
    now rewrite Hp, He.
  - intros He Hm. unfold _create_file. fold dir. rewrite He, Hm.
    eexists. split; [reflexivity|]. intros Hdir. now apply path_exists_made.
  - intros He Hm. unfold _create_file. fold dir. rewrite He, Hm. eauto.
  - intros e d' H.
    pose proof (create_file_keeps_paths h filename d) as Hk. rewrite H in Hk. simpl in Hk.
    pose proof (create_file_disk h filename d) as Hf. rewrite H in Hf. simpl in Hf.
    unfold _create_file in H. fold dir in H.
    destruct (path_exists h dir d); [discriminate|].
    destruct (makedirs h dir) as [| |made]; try discriminate.
    injection H as <- _. repeat split; eauto.
Qed.

Lemma create_file_makes_directory_once_witness :
  let dangling := {| urlopen := urlopen online; ZipFile := ZipFile online;
                     makedirs := fun _ => Exists;
                     realpath := realpath online; wb := wb online;
                     aliased := aliased online;
                     version_file := version_file online; abspath := abspath online;
                     broker_down := broker_down online |} in
  let d1 := disk_of (_create_file online "tmp/sub/ck_ca.pem" empty_disk) in
  let d2 := disk_of (_create_file dangling "tmp/sub/ck_ca.pem" empty_disk) in
  (path_exists online "tmp/sub" empty_disk = false
   /\ makedirs online "tmp/sub" = Made
   /\ makedirs dangling "tmp/sub" = Exists)
  /\ _create_file online "tmp/sub/ck_ca.pem" empty_disk = Ok true d1
  /\ path_exists online "tmp/sub" d1 = true
  /\ _create_file dangling "tmp/sub/ck_ca.pem" d1 = Ok true d1
  /\ _create_file dangling "tmp/sub/ck_ca.pem" empty_disk = Ok true d2
  /\ path_exists dangling "tmp/sub" d2 = false.
Proof.
  intros dangling d1 d2.
  split; [repeat split|].
  destruct (create_file_makes_directory_once online "tmp/sub/ck_ca.pem" empty_disk)
    as (_ & _ & Hmade & _ & _).
  destruct (Hmade eq_refl eq_refl) as (d' & Hrun & Hdir).
  assert (Hd : d' = d1) by (unfold d1; now rewrite Hrun). subst d'.
  specialize (Hdir eq_refl).
  split; [exact Hrun|]. split; [exact Hdir|].
  destruct (create_file_makes_directory_once online "tmp/sub/ck_ca.pem" d1)
    as (_ & Hagain & _).
  split; [exact (Hagain Hdir dangling eq_refl)|].
  destruct (create_file_makes_directory_once dangling "tmp/sub/ck_ca.pem" empty_disk)
    as (_ & _ & _ & Hexists & _).
  destruct (Hexists eq_refl eq_refl) as (d' & Hrun2).
  assert (Hd : d' = d2) by (unfold d2; now rewrite Hrun2). subst d'.
  split; [exact Hrun2 | vm_compute; reflexivity].
Defined.

Lemma topics_lookup (prof event log : Json) (channel : string) :
  (<["monitoring" := prof]> (<["event" := event]> (<["log" := log]> ∅)) : gmap string Json)
    !! channel
  = if String.eqb channel "monitoring" then Some prof
    else if String.eqb channel "event" then Some event
    else if String.eqb channel "log" then Some log
    else None.
Proof.
  destruct (String.eqb_spec channel "monitoring") as [-> | H1]; [apply lookup_insert_eq|].
  rewrite lookup_insert_ne by congruence.
  destruct (String.eqb_spec channel "event") as [-> | H2]; [apply lookup_insert_eq|].
  rewrite lookup_insert_ne by congruence.
  destruct (String.eqb_spec channel "log") as [-> | H3]; [apply lookup_insert_eq|].
  rewrite lookup_insert_ne by congruence. apply lookup_empty.
Qed.

Lemma channels_spec (channel : string) :
  channel ∈ channels
  <-> String.eqb channel "monitoring" || String.eqb channel "event"
      || String.eqb channel "log" = true.
Proof.
  unfold channels. rewrite !elem_of_cons, elem_of_nil, !orb_true_iff, !String.eqb_eq.
  tauto.
Qed.

(** X10: when [_get_kafka_brokers] returns, the response was a JSON object
    with the keys brokers, prof_topic, event_topic and log_topic; the
    client's brokers are the value of brokers, and its topics bind exactly
    three channels: monitoring to the value of prof_topic, event to that
    of event_topic, log to that of log_topic.  Nothing else of the client
    changes. *)
Theorem brokers_bind_three_channels :
  forall loads h self self',
    _get_kafka_brokers loads h self = inr self' ->
    exists body kafka_info,
      urlopen h (with_auth self "private/devices/config/") = Body body
      /\ loads body = Some kafka_info
      /\ getitem kafka_info "brokers" = inr (brokers self')
      /\ (forall channel key,
            (channel, key) ∈ [("monitoring", "prof_topic"); ("event", "event_topic");
                              ("log", "log_topic")] ->
            exists topic, producer_types self' !! channel = Some topic
                          /\ getitem kafka_info key = inr topic)
      /\ (forall channel, channel ∉ channels -> producer_types self' !! channel = None)
      /\ set_brokers (brokers self) (producer_types self) self' = self.
Proof.
  intros loads h self self' H.
  destruct (brokers_inv loads h self self' H)
    as (body & info & b & prof & event & log & Hu & Hl & Hb & Hp & He & Hlog & ->).
  exists body, info. repeat split; try assumption.
  - intros channel key Hin. simpl. rewrite topics_lookup.
    repeat (apply elem_of_cons in Hin as [[= -> ->] | Hin]);
      [exists prof | exists event | exists log | now apply elem_of_nil in Hin];
      now split.
  - intros channel Hnot. simpl. rewrite topics_lookup.
    rewrite channels_spec in Hnot.
    destruct (String.eqb channel "monitoring"), (String.eqb channel "event"),
      (String.eqb channel "log"); simpl in Hnot; congruence.
  - now destruct self.
Qed.

Lemma brokers_bind_three_channels_witness :
  exists self',
    _get_kafka_brokers MiniJson.loads online
      (new_client "key" "app" "https://api.auklet.io/") = inr self'
    /\ brokers self' = JList [JStr "broker:9093"]
    /\ producer_types self' !! "monitoring" = Some (JStr "profiler")
    /\ producer_types self' !! "audit" = None.
Proof.
  assert (Hrun : exists self',
             _get_kafka_brokers MiniJson.loads online
               (new_client "key" "app" "https://api.auklet.io/") = inr self'
             /\ brokers self' = JList [JStr "broker:9093"]
             /\ producer_types self' !! "monitoring" = Some (JStr "profiler"))
    by (eexists; repeat split; vm_compute; reflexivity).
  destruct Hrun as (self' & Hrun & Hb & Hm).
  exists self'. split; [exact Hrun|]. split; [exact Hb|]. split; [exact Hm|].
  destruct (brokers_bind_three_channels MiniJson.loads online _ self' Hrun)
    as (body & info & _ & _ & _ & _ & Hnone & _).
  apply Hnone. rewrite channels_spec. discriminate.
Defined.

(** X11: on a client that [__init__] built, a call of [produce] on a
    channel other than monitoring, event and log raises [KeyError], before
    any send and without a change, when there is a producer (and is a
    no-op when there is none).  On these three channels it ends in one of
    three ways: it returns [None]; it raises the [ValueError] or the
    [AttributeError] of a spool line that is no JSON object; or it
    exhausts the call stack ([RecursionError]) in a replay that re-enters
    itself. *)
Theorem built_client_knows_three_channels :
  forall loads h apikey app_id base_url mac_hash d self d',
    __init__ loads h apikey app_id base_url mac_hash d = Ok self d' ->
    forall dumps loads' send_raises append_fails fuel data data_type w,
      let out := produce dumps loads' send_raises append_fails fuel self data data_type w in
      (data_type ∈ channels ->
       (exists w', out = Ret PyNone w')
       \/ (exists e w', out = Raise e w' /\ (e = ValueError \/ e = AttributeError))
       \/ (exists w', out = Overflow w'))
      /\ (data_type ∉ channels ->
          out = match producer self with
                | Some _ => Raise KeyError w
                | None => Ret PyNone w
                end).
Proof.
  intros loads h apikey app_id base_url mac_hash d self d' H.
  destruct (init_inv _ _ _ _ _ _ _ _ _ H) as (self1 & r1 & d1 & content & Hb & _ & _ & _ & Hs).
  destruct (brokers_inv loads h _ self1 Hb)
    as (body & info & b & prof & event & log & _ & _ & _ & _ & _ & _ & Hs1).
  assert (Htypes : forall channel,
             producer_types self !! channel
             = if String.eqb channel "monitoring" then Some prof
               else if String.eqb channel "event" then Some event
               else if String.eqb channel "log" then Some log
               else None).
  { intros channel. rewrite <- topics_lookup. rewrite Hs, Hs1. cbv zeta.
    now destruct (broker_down h _). }
  assert (Hsome : forall channel, channel ∈ channels ->
                                  is_Some (producer_types self !! channel)).
  { intros channel Hin. rewrite Htypes. rewrite channels_spec in Hin.
    destruct (String.eqb channel "monitoring"), (String.eqb channel "event"),
      (String.eqb channel "log"); simpl in Hin; try discriminate; eauto. }
  intros dumps loads' send_raises append_fails fuel data data_type w out. subst out. split.
  - intros Hin.
    destruct (produce dumps loads' send_raises append_fails fuel self data data_type w)
      as [r w'|e w'|w'] eqn:Hout.
    + left. exists w'. now rewrite (produce_ret_none _ _ _ _ _ _ _ _ _ _ _ Hout).
    + right. left. exists e, w'. split; [reflexivity|].
      apply (produce_line_error dumps loads' send_raises append_fails self
               (Hsome "event" ltac:(apply channels_spec; reflexivity))
               (Hsome "monitoring" ltac:(apply channels_spec; reflexivity))
               fuel data data_type w e w' (Hsome data_type Hin) Hout).
    + right. right. now exists w'.
  - intros Hnot.
    assert (Hnone : producer_types self !! data_type = None).
    { rewrite Htypes. rewrite channels_spec in Hnot.
      destruct (String.eqb data_type "monitoring"), (String.eqb data_type "event"),
        (String.eqb data_type "log"); simpl in Hnot; congruence. }
    destruct fuel; simpl; rewrite Hnone; now destruct (producer self).
Qed.

Lemma built_client_knows_three_channels_witness :
  exists self d,
    boot online = Ok self d
    /\ produce MiniJson.dumps MiniJson.loads never no_fault 2 self (metric "m1") "audit"
               (fresh None)
       = Raise KeyError (fresh None)
    /\ exists w',
         produce MiniJson.dumps MiniJson.loads never no_fault 2 self (metric "m1") "log"
                 (fresh (Some ("oops" +:+ nl))) = Raise ValueError w'.
Proof.
  assert (Hboot : exists self d,
             boot online = Ok self d /\ producer self <> None
             /\ exists e w',
                  produce MiniJson.dumps MiniJson.loads never no_fault 2 self (metric "m1")
                          "log" (fresh (Some ("oops" +:+ nl))) = Raise e w'
                  /\ e <> AttributeError)
    by (eexists _, _; split; [vm_compute; reflexivity|];
        split; [discriminate|]; eexists _, _;
        split; [vm_compute; reflexivity | discriminate]).
  destruct Hboot as (self & d & Hboot & Hp & e & w' & Hrun & Hne).
  exists self, d. split; [exact Hboot|].
  pose proof (built_client_knows_three_channels MiniJson.loads online
                "key" "app" "https://api.auklet.io/" "mac" empty_disk self d Hboot) as Hall.
  split.
  - destruct (Hall MiniJson.dumps MiniJson.loads never no_fault 2 (metric "m1") "audit"
                (fresh None)) as [_ Hnot].
    rewrite Hnot by (rewrite channels_spec; discriminate).
    now destruct (producer self).
  - destruct (Hall MiniJson.dumps MiniJson.loads never no_fault 2 (metric "m1") "log"
                (fresh (Some ("oops" +:+ nl)))) as [Hin _].
    destruct (Hin ltac:(apply channels_spec; reflexivity))
      as [(w1 & H1) | [(e1 & w1 & H1 & Hline) | (w1 & H1)]];
      rewrite Hrun in H1; try discriminate.
    injection H1 as -> ->. exists w1.
    destruct Hline as [-> | ->]; [exact Hrun | contradiction].
Defined.

(** X12: a client that [__init__] returns holds the arguments it was given
    and [send_enabled]; its commit hash is the whole content of
    [.auklet/version] and its path the part of the absolute path of that
    file before [.auklet]; its producer is missing exactly when the broker
    could not be reached, and otherwise reads its servers from the fetched
    brokers and its credentials from the three fixed [.pem] paths over SSL,
    with the host name check off.  The path [tmp] of the directory of the
    spool exists afterwards when it existed before or [os.makedirs] made
    it. *)
Theorem built_client_fields :
  forall loads h apikey0 app_id0 base_url0 mac_hash0 d self d',
    __init__ loads h apikey0 app_id0 base_url0 mac_hash0 d = Ok self d' ->
    apikey self = apikey0 /\ app_id self = app_id0 /\ base_url self = base_url0
    /\ mac_hash self = mac_hash0 /\ send_enabled self = true
    /\ (exists content,
          version_file h = Some content
          /\ commit_hash self = PStr content
          /\ abs_path self = PStr (split_first ".auklet" (abspath h ".auklet/version")))
    /\ producer self
       = (if broker_down h (producer_config self) then None
          else Some {| bootstrap_servers := brokers self;
                       ssl_cafile := "tmp/ck_ca.pem";
                       ssl_certfile := "tmp/ck_cert.pem";
                       ssl_keyfile := "tmp/ck_private_key.pem";
                       security_protocol := "SSL";
                       ssl_check_hostname := false |})
    /\ (path_exists h "tmp" d = true \/ makedirs h "tmp" = Made ->
        path_exists h "tmp" d' = true).
Proof.
  intros loads h apikey0 app_id0 base_url0 mac_hash0 d self d' H.
  destruct (init_inv _ _ _ _ _ _ _ _ _ H)
    as (self1 & r1 & d1 & content & Hb & Hf & Hv & Hc & Hs).
  destruct (brokers_inv loads h _ self1 Hb)
    as (body & info & b & prof & event & log & _ & _ & _ & _ & _ & _ & Hs1).
  cbv zeta in Hs.
  set (self2 := set_identity mac_hash0 (PStr content)
                  (PStr (get_abs_path h ".auklet/version")) self1) in *.
  assert (Hconfig : producer_config self = producer_config self2).
  { rewrite Hs. now destruct (broker_down h (producer_config self2)). }
  assert (Hdir : path_exists h "tmp" d = true \/ makedirs h "tmp" = Made ->
                 path_exists h "tmp" d' = true).
  { intros Hhow.
    pose proof (create_file_directory h offline_fliename d r1 d1 Hf eq_refl Hhow)
      as Hexists.
    pose proof (certs_keep h self2 d1) as (Hkeep & _ & _).
    rewrite Hc in Hkeep. simpl in Hkeep. now apply Hkeep. }
  rewrite Hconfig.
  assert (Hfields :
    apikey self2 = apikey0 /\ app_id self2 = app_id0 /\ base_url self2 = base_url0
    /\ mac_hash self2 = mac_hash0 /\ send_enabled self2 = true
    /\ commit_hash self2 = PStr content
    /\ abs_path self2 = PStr (split_first ".auklet" (abspath h ".auklet/version"))
    /\ producer self2 = None)
    by (subst self2; rewrite Hs1; now repeat split).
  destruct Hfields as (F1 & F2 & F3 & F4 & F5 & F6 & F7 & F8).
  rewrite Hs. destruct (broker_down h (producer_config self2)); simpl;
    repeat split; eauto.
Qed.

Lemma built_client_fields_witness :
  exists self d,
    boot online = Ok self d
    /\ commit_hash self = PStr "abc123"
    /\ abs_path self = PStr "/srv/app/"
    /\ (exists p, producer self = Some p /\ ssl_cafile p = "tmp/ck_ca.pem"
                  /\ bootstrap_servers p = JList [JStr "broker:9093"])
    /\ makedirs online "tmp" = Made
    /\ path_exists online "tmp" d = true.
Proof.
  assert (Hboot : exists self d, boot online = Ok self d)
    by (eexists _, _; vm_compute; reflexivity).
  destruct Hboot as (self & d & Hboot). exists self, d. split; [exact Hboot|].
  destruct (built_client_fields MiniJson.loads online "key" "app" "https://api.auklet.io/"
              "mac" empty_disk self d Hboot)
    as (_ & _ & _ & _ & _ & (content & Hv & Hcommit & Hpath) & Hproducer & Hdir).
  injection Hv as <-.
  split; [exact Hcommit|]. split; [rewrite Hpath; vm_compute; reflexivity|].
  split; [|split; [reflexivity | apply Hdir; now right]].
  simpl in Hproducer. eexists. split; [exact Hproducer|]. split; [reflexivity|].
  simpl. unfold boot in Hboot. vm_compute in Hboot. now injection Hboot as <- _.
Defined.


(** X14: [get_abs_path] cuts the absolute path at the first occurrence of
    [.auklet]: the result is a prefix of the absolute path, what follows it
    is nothing or begins with [.auklet], and [.auklet] begins at no earlier
    position.  A path without [.auklet] comes back whole. *)
Theorem abs_path_cut_at_first_auklet :
  forall h path,
    exists tail,
      abspath h path = get_abs_path h path +:+ tail
      /\ (tail = EmptyString \/ String.prefix ".auklet" tail = true)
      /\ forall k, k < String.length (get_abs_path h path) ->
                   String.prefix ".auklet" (string_drop k (abspath h path)) = false.
Proof.
  intros h path. unfold get_abs_path. generalize (abspath h path) as s.
  induction s as [|c s (tail & Hs & Htail & Hearlier)].
  - exists EmptyString. repeat split; auto. simpl. lia.
  - cbn [split_first]. destruct (String.prefix ".auklet" (String c s)) eqn:Hp.
    + exists (String c s). split; [reflexivity|]. split; [now right | simpl; lia].
    + exists tail. split; [now rewrite append_cons, <- Hs|]. split; [exact Htail|].
      intros [|k] Hk; [exact Hp|]. apply Hearlier. simpl in Hk. lia.
Qed.

(** ** Record enrichment *)

Lemma contains_elem (key : string) (ks : list string) :
  contains key ks = true <-> key ∈ ks.
Proof.
  unfold contains. rewrite existsb_exists. split.
  - intros (k & Hin & E). apply String.eqb_eq in E. subst k. now apply list_elem_of_In.
  - intros Hin. exists key. split; [now apply list_elem_of_In | apply String.eqb_refl].
Qed.

Lemma dict_get_app_last {A} (key : string) (v : A) (items : list (string * A)) :
  dict_get key (items ++ [(key, v)]) = Some v.
Proof.
  induction items as [|[k x] items IH]; simpl; [now rewrite String.eqb_refl|].
  now rewrite IH.
Qed.

Lemma dict_get_app_other {A} (key k : string) (v : A) (items : list (string * A)) :
  k <> key -> dict_get k (items ++ [(key, v)]) = dict_get k items.
Proof.
  intros Hne. induction items as [|[k' x] items IH]; simpl.
  - destruct (String.eqb_spec key k); congruence.
  - now rewrite IH.
Qed.

Lemma dict_set_keys (key : string) (v : Json) (items : list (string * Json)) :
  map fst (dict_set key v items)
  = if contains key (map fst items) then map fst items else map fst items ++ [key].
Proof.
  unfold dict_set. destruct (contains key (map fst items)).
  - rewrite map_map. apply map_ext. intros [k x]. simpl. now destruct (String.eqb k key).
  - now rewrite map_app.
Qed.

Lemma dict_get_set_eq (key : string) (v : Json) (items : list (string * Json)) :
  dict_get key (dict_set key v items) = Some v.
Proof.
  unfold dict_set. destruct (contains key (map fst items)) eqn:Hc;
    [|apply dict_get_app_last].
  induction items as [|[k x] items IH]; [discriminate|]. simpl in *.
  destruct (contains key (map fst items)) eqn:Hrest.
  - rewrite (IH eq_refl). now destruct (String.eqb k key).
  - rewrite orb_false_r in Hc.
    rewrite String.eqb_sym in Hc. rewrite Hc. simpl. rewrite Hc.
    assert (Hnone : dict_get key
              (map (fun kv : string * Json =>
                      if String.eqb (fst kv) key then (fst kv, v) else kv) items) = None).
    { apply dict_get_absent. intros Hin. rewrite <- list_fmap_compose in Hin.
      assert (Hkeys : (fst ∘ (fun kv : string * Json =>
                        if String.eqb (fst kv) key then (fst kv, v) else kv)) <$> items
                      = map fst items).
      { apply map_ext. intros [k' x']. simpl. now destruct (String.eqb k' key). }
      rewrite Hkeys in Hin. apply contains_elem in Hin. congruence. }
    now rewrite Hnone.
Qed.

Lemma dict_get_set_ne (key k : string) (v : Json) (items : list (string * Json)) :
  k <> key -> dict_get k (dict_set key v items) = dict_get k items.
Proof.
  intros Hne. unfold dict_set. destruct (contains key (map fst items));
    [|now apply dict_get_app_other].
  induction items as [|[k' x] items IH]; [reflexivity|]. simpl. rewrite IH.
  destruct (String.eqb_spec k' key) as [-> | Hk]; simpl; [|reflexivity].
  destruct (dict_get k items); [reflexivity|].
  destruct (String.eqb_spec key k); congruence.
Qed.

Lemma dict_set_lookup_other (key : string) (v : Json) (items : list (string * Json))
      (i : nat) (k : string) (x : Json) :
  k <> key -> items !! i = Some (k, x) -> dict_set key v items !! i = Some (k, x).
Proof.
  intros Hne Hi. unfold dict_set. destruct (contains key (map fst items)).
  - change (map ?f items) with (f <$> items). rewrite list_lookup_fmap, Hi. simpl.
    destruct (String.eqb_spec k key); congruence.
  - now apply lookup_app_l_Some.
Qed.

Lemma dict_set_contains (key k : string) (v : Json) (items : list (string * Json)) :
  k <> key ->
  contains k (map fst (dict_set key v items)) = contains k (map fst items).
Proof.
  intros Hne. rewrite dict_set_keys. destruct (contains key (map fst items)); [reflexivity|].
  unfold contains. rewrite existsb_app. simpl.
  destruct (String.eqb_spec k key); [congruence|]. now rewrite !orb_false_r.
Qed.

Lemma dict_set_NoDup (key : string) (v : Json) (items : list (string * Json)) :
  NoDup (map fst items) -> NoDup (map fst (dict_set key v items)).
Proof.
  intros Hnd. rewrite dict_set_keys. destruct (contains key (map fst items)) eqn:Hc;
    [exact Hnd|].
  apply NoDup_app. split; [exact Hnd|]. split; [|apply NoDup_singleton].
  intros k Hin Hk. apply list_elem_of_singleton in Hk. subst k.
  apply contains_elem in Hin. congruence.
Qed.

Ltac peel_sets :=
  repeat (rewrite dict_get_set_ne by discriminate); apply dict_get_set_eq.

(** X15: the record [build_event_data] returns binds each of the seven
    enrichment keys to its value, also where the event data bound the key
    already: the application id, the public address (null when the lookup
    raised), the fresh id and time stamp, the system metrics, the hash of
    the device and the commit hash. *)
Theorem enrichment_binds_its_keys :
  forall (Arg : Type) (Event : Arg -> Arg -> Arg -> pyobj -> list (string * Json))
         SystemMetrics get_ip uuid4 utcnow self type traceback tree,
    let record := build_event_data Event SystemMetrics get_ip uuid4 utcnow
                                   self type traceback tree in
    dict_get "application" record = Some (JStr (app_id self))
    /\ dict_get "publicIP" record
       = Some (match get_ip with Some ip => JStr ip | None => JNull end)
    /\ dict_get "id" record = Some (JStr uuid4)
    /\ dict_get "timestamp" record = Some (JStr utcnow)
    /\ dict_get "systemMetrics" record = Some (JDict SystemMetrics)
    /\ dict_get "macAddressHash" record = Some (JStr (mac_hash self))
    /\ dict_get "commitHash" record = Some (as_json (commit_hash self)).
Proof.
  intros Arg Event SystemMetrics get_ip uuid4 utcnow self type traceback tree record.
  subst record. unfold build_event_data, get_device_ip.
  repeat split; peel_sets.
Qed.

(** X16: the enrichment leaves the event data alone: a pair of the event
    dict whose key is none of the seven stays at its position with its
    value, and looking such a key up gives what the event dict gives. *)
Theorem enrichment_keeps_event_data :
  forall (Arg : Type) (Event : Arg -> Arg -> Arg -> pyobj -> list (string * Json))
         SystemMetrics get_ip uuid4 utcnow self type traceback tree key,
    key ∉ enriched_keys ->
    let event_dict := Event type traceback tree (abs_path self) in
    let record := build_event_data Event SystemMetrics get_ip uuid4 utcnow
                                   self type traceback tree in
    dict_get key record = dict_get key event_dict
    /\ forall i value, event_dict !! i = Some (key, value) ->
                       record !! i = Some (key, value).
Proof.
  intros Arg Event SystemMetrics get_ip uuid4 utcnow self type traceback tree key Hnot
         event_dict record.
  subst record event_dict. unfold build_event_data. unfold enriched_keys in Hnot.
  repeat (apply not_elem_of_cons in Hnot as [? Hnot]).
  split.
  - now rewrite !dict_get_set_ne by assumption.
  - intros i value Hi. now repeat (apply dict_set_lookup_other; [assumption|]).
Qed.

Lemma enrichment_keeps_event_data_witness :
  ("stackTrace" ∉ enriched_keys)
  /\ dict_get "stackTrace" (enrich None) = Some (JList [JStr "main"])
  /\ enrich None !! 0 = Some ("stackTrace", JList [JStr "main"]).
Proof.
  assert (Hnot : "stackTrace" ∉ enriched_keys).
  { unfold enriched_keys. intros Hin.
    repeat (apply elem_of_cons in Hin as [Hin | Hin]; [discriminate|]).
    now apply elem_of_nil in Hin. }
  split; [exact Hnot|].
  destruct (enrichment_keeps_event_data Json sample_event sample_metrics None "uuid-1"
              "2018-06-01 12:00:00" connected (JStr "ValueError") (JList [JStr "main"])
              JNull "stackTrace" Hnot) as [Hget Hpos].
  split; [exact Hget | now apply Hpos].
Defined.

(** X17: the enrichment does not change the shape of a record: it has the
    key stackTrace exactly when the event data has it, so a spooled record
    is replayed on the event channel exactly when its event data carried a
    stack trace. *)
Theorem enrichment_keeps_shape :
  forall (Arg : Type) (Event : Arg -> Arg -> Arg -> pyobj -> list (string * Json))
         SystemMetrics get_ip uuid4 utcnow self type traceback tree,
    let event_dict := Event type traceback tree (abs_path self) in
    let record := build_event_data Event SystemMetrics get_ip uuid4 utcnow
                                   self type traceback tree in
    contains "stackTrace" (map fst record) = contains "stackTrace" (map fst event_dict)
    /\ shape_channel (map fst record) = shape_channel (map fst event_dict).
Proof.
  intros Arg Event SystemMetrics get_ip uuid4 utcnow self type traceback tree
         event_dict record.
  assert (H : contains "stackTrace" (map fst record)
              = contains "stackTrace" (map fst event_dict)).
  { subst record event_dict. unfold build_event_data.
    now rewrite !dict_set_contains by discriminate. }
  split; [exact H|]. unfold shape_channel. now rewrite H.
Qed.

(** X18: the enrichment keeps the record a dict: if the keys of the event
    data are distinct, so are the keys of the record. *)
Theorem enrichment_keeps_keys_distinct :
  forall (Arg : Type) (Event : Arg -> Arg -> Arg -> pyobj -> list (string * Json))
         SystemMetrics get_ip uuid4 utcnow self type traceback tree,
    NoDup (map fst (Event type traceback tree (abs_path self))) ->
    NoDup (map fst (build_event_data Event SystemMetrics get_ip uuid4 utcnow
                                     self type traceback tree)).
Proof.
  intros Arg Event SystemMetrics get_ip uuid4 utcnow self type traceback tree Hnd.
  unfold build_event_data. now repeat apply dict_set_NoDup.
Qed.

Lemma enrichment_keeps_keys_distinct_witness :
  NoDup (map fst (sample_event (JStr "ValueError") (JList [JStr "main"]) JNull
                               (abs_path connected)))
  /\ NoDup (map fst (enrich (Some "203.0.113.7")))
  /\ map fst (enrich (Some "203.0.113.7"))
     = ["stackTrace"; "excType"; "tree"; "absPath"; "id"; "application"; "publicIP";
        "timestamp"; "systemMetrics"; "macAddressHash"; "commitHash"].
Proof.
  assert (Hnd : NoDup (map fst (sample_event (JStr "ValueError") (JList [JStr "main"]) JNull
                                             (abs_path connected)))).
  { refine (bool_decide_unpack _ _). vm_compute. exact I. }
  split; [exact Hnd|]. split; [|vm_compute; reflexivity].
  apply (enrichment_keeps_keys_distinct Json sample_event sample_metrics
           (Some "203.0.113.7") "uuid-1" "2018-06-01 12:00:00" connected
           (JStr "ValueError") (JList [JStr "main"]) JNull Hnd).
Defined.

Lemma enrichment_binds_its_keys_witness :
  dict_get "publicIP" (enrich None) = Some JNull
  /\ dict_get "publicIP" (enrich (Some "203.0.113.7")) = Some (JStr "203.0.113.7")
  /\ sample_event (JStr "ValueError") (JList [JStr "main"]) JNull (abs_path connected) !! 4
     = Some ("id", JStr "from-event")
  /\ enrich None !! 4 = Some ("id", JStr "uuid-1").
Proof.
  split; [|split; [|split; vm_compute; reflexivity]].
  - apply (enrichment_binds_its_keys Json sample_event sample_metrics None "uuid-1"
             "2018-06-01 12:00:00" connected (JStr "ValueError") (JList [JStr "main"]) JNull).
  - apply (enrichment_binds_its_keys Json sample_event sample_metrics
             (Some "203.0.113.7") "uuid-1" "2018-06-01 12:00:00" connected
             (JStr "ValueError") (JList [JStr "main"]) JNull).
Defined.

(** ** The start and stop lifecycle *)

(** X19: [start] succeeds only on an instance that is not running and with
    a [run] whose call returns a generator that first yields without a
    value; the instance is then running, a further [start] raises
    RuntimeError (Already started) and changes nothing, and [stop] leaves
    it not running, without an error if the generator ends after its one
    yield. *)
Theorem start_then_stop :
  forall run self self1,
    Runnable.start run self = (None, self1) ->
    self = None
    /\ Runnable.is_running self1 = true
    /\ (forall run2,
          Runnable.start run2 self1
          = (Some (Runnable.RuntimeError "Already started"), self1))
    /\ Runnable.is_running (snd (Runnable.stop self1)) = false
    /\ exists rest,
         run = inr (Runnable.Yield JNull rest)
         /\ self1 = Some rest
         /\ (rest = Runnable.Return -> Runnable.stop self1 = (None, None)).
Proof.
  intros run self self1. unfold Runnable.start.
  destruct self as [g|]; simpl; [discriminate|].
  destruct run as [e|[[] rest| |e]]; simpl; try discriminate.
  intros [= <-]. split; [reflexivity|]. split; [reflexivity|].
  split; [reflexivity|]. split.
  - now destruct rest.
  - exists rest. split; [reflexivity|]. split; [reflexivity|]. now intros ->.
Qed.

Lemma start_then_stop_witness :
  let run := inr (Runnable.Yield JNull Runnable.Return) in
  Runnable.start run None = (None, Some Runnable.Return)
  /\ Runnable.stop (Some Runnable.Return) = (None, None)
  /\ Runnable.start run (Some Runnable.Return)
     = (Some (Runnable.RuntimeError "Already started"), Some Runnable.Return).
Proof.
  intros run.
  assert (Hstart : Runnable.start run None = (None, Some Runnable.Return)) by reflexivity.
  split; [exact Hstart|].
  destruct (start_then_stop run None (Some Runnable.Return) Hstart)
    as (_ & _ & Hagain & _ & rest & _ & Hrest & Hstop).
  injection Hrest as <-.
  split; [now apply Hstop | apply Hagain].
Defined.



(** X21: [stop] leaves the instance not running, whatever it raises; on a
    running instance it raises nothing exactly when the generator ends at
    once, TypeError (just one time) when it yields again, and what the
    generator raises otherwise; a second [stop] always raises RuntimeError
    (Not started). *)
Theorem stop_always_stops :
  forall self e self1,
    Runnable.stop self = (e, self1) ->
    self1 = None
    /\ Runnable.stop self1 = (Some (Runnable.RuntimeError "Not started"), None)
    /\ match self with
       | None => e = Some (Runnable.RuntimeError "Not started")
       | Some Runnable.Return => e = None
       | Some (Runnable.Yield _ _) =>
           e = Some (Runnable.TypeError "run() must yield just one time")
       | Some (Runnable.Raise e') => e = Some e'
       end.
Proof.
  intros self e self1. unfold Runnable.stop.
  destruct self as [[v rest| |e']|]; simpl; intros [= <- <-]; now repeat split.
Qed.

Lemma stop_always_stops_witness :
  let twice := inr (Runnable.Yield JNull (Runnable.Yield JNull Runnable.Return)) in
  Runnable.start twice None = (None, Some (Runnable.Yield JNull Runnable.Return))
  /\ Runnable.stop (Some (Runnable.Yield JNull Runnable.Return))
     = (Some (Runnable.TypeError "run() must yield just one time"), None)
  /\ Runnable.stop None = (Some (Runnable.RuntimeError "Not started"), None).
Proof.
  intros twice. split; [reflexivity|].
  assert (Hstop : Runnable.stop (Some (Runnable.Yield JNull Runnable.Return))
                  = (Some (Runnable.TypeError "run() must yield just one time"), None))
    by reflexivity.
  split; [exact Hstop|].
  destruct (stop_always_stops _ _ _ Hstop) as (_ & Hagain & _). exact Hagain.
Defined.

(** X22: used as a context manager with a [run] that yields once without a
    value, an instance that is not running is running inside the block and
    not running after it, and the block raises exactly what its body
    raised, provided the body leaves the instance alone; on an instance
    that is running already the body is not entered. *)
Theorem with_block_brackets_body :
  forall body,
    (forall self, snd (body self) = self) ->
    Runnable.with_block (inr (Runnable.Yield JNull Runnable.Return)) body None
    = (fst (body (Some Runnable.Return)), None)
    /\ forall run g,
         Runnable.with_block run body (Some g)
         = (Some (Runnable.RuntimeError "Already started"), Some g).
Proof.
  intros body Hbody. split; [|reflexivity].
  unfold Runnable.with_block. simpl.
  specialize (Hbody (Some Runnable.Return)).
  destruct (body (Some Runnable.Return)) as [raised self2]. simpl in *. now subst self2.
Qed.

Lemma with_block_brackets_body_witness :
  let body := fun self : Runnable.t => (Some (Runnable.Exception "KeyError"), self) in
  (forall self, snd (body self) = self)
  /\ Runnable.with_block (inr (Runnable.Yield JNull Runnable.Return)) body None
     = (Some (Runnable.Exception "KeyError"), None).
Proof.
  intros body.
  assert (Hbody : forall self, snd (body self) = self) by reflexivity.
  split; [exact Hbody|].
  apply (with_block_brackets_body body Hbody).
Defined.
(** ** The frame stack *)

Lemma linked_cons (back f : Frame) (frames : list Frame) :
  f_back f = Some back -> linked (f :: frames) -> linked (back :: f :: frames).
Proof.
  intros Hback Hl [|i] a b Ha Hb; simpl in *.
  - injection Ha as <-. injection Hb as <-. exact Hback.
  - exact (Hl i a b Ha Hb).
Qed.

Lemma frame_stack_loop_spec :
  forall f frames,
    linked (f :: frames) ->
    linked (frame_stack_loop f frames)
    /\ (exists root rest, frame_stack_loop f frames = root :: rest /\ f_back root = None)
    /\ exists outer, frame_stack_loop f frames = outer ++ f :: frames.
Proof.
  fix IH 1. intros [name [back|]] frames Hl; simpl.
  - destruct (IH back (mkFrame name (Some back) :: frames)) as (H1 & H2 & outer & H3).
    { now apply linked_cons. }
    split; [exact H1|]. split; [exact H2|].
    exists (outer ++ [back]). now rewrite <- app_assoc.
  - split; [exact Hl|]. split; [eauto|]. now exists [].
Qed.

(** X23: [frame_stack] lists the frame and its callers outermost first: the
    list of no frame is empty; otherwise the last element is the given
    frame, the first has no [f_back], and each element after the first has
    the element before it as its [f_back]. *)
Theorem frame_stack_outermost_first :
  frame_stack None = []
  /\ forall f,
       last (frame_stack (Some f)) = Some f
       /\ (exists root rest, frame_stack (Some f) = root :: rest /\ f_back root = None)
       /\ linked (frame_stack (Some f)).
Proof.
  split; [reflexivity|]. intros f. unfold frame_stack.
  destruct (frame_stack_loop_spec f []) as (Hl & Hroot & outer & Hlast).
  { intros [|i] a b Ha Hb; simpl in Hb; now rewrite ?lookup_nil in Hb. }
  split; [|split; assumption].
  rewrite Hlast. apply last_snoc.
Qed.

Lemma frame_stack_outermost_first_witness :
  let main := mkFrame "main" None in
  let handler := mkFrame "handler" (Some main) in
  let leaf := mkFrame "leaf" (Some handler) in
  frame_stack (Some leaf) = [main; handler; leaf]
  /\ last (frame_stack (Some leaf)) = Some leaf
  /\ linked (frame_stack (Some leaf)).
Proof.
  intros main handler leaf. split; [reflexivity|].
  destruct frame_stack_outermost_first as [_ H].
  destruct (H leaf) as (Hlast & _ & Hlinked). now split.
Defined.

(** ** The device hash *)

Example mac_text_examples :
  hex 0 = "0x0"
  /\ hex 255 = "0xff"
  /\ replace "0x" EmptyString "0x10x0x2" = "12"
  /\ mac_text 0xA1B2C3D4E5F6 = "A1-B2-C3-D4-E5-F6"
  /\ mac_text 0x001A2B3C4D5E = "1A-2B-3C-4D-5E-"
  /\ mac_text 0x2A = "2A-----".
Proof. repeat split; vm_compute; reflexivity. Qed.

Lemma hex_digit_no_x (n : N) : (n < 16)%N -> Ascii.eqb (hex_digit n) "x" = false.
Proof.
  intros H.
  assert (Hcases : In n [0; 1; 2; 3; 4; 5; 6; 7; 8; 9; 10; 11; 12; 13; 14; 15]%N).
  { simpl. lia. }
  simpl in Hcases.
  repeat (destruct Hcases as [<- | Hcases]; [reflexivity|]). contradiction.
Qed.

Lemma hex_digits_no_x (fuel : nat) :
  forall n acc, no_x acc = true -> no_x (hex_digits fuel n acc) = true.
Proof.
  induction fuel as [|fuel IH]; intros n acc Hacc; simpl; [exact Hacc|].
  assert (Hacc' : no_x (String (hex_digit (n mod 16)) acc) = true).
  { simpl. rewrite hex_digit_no_x by (apply N.mod_upper_bound; lia). exact Hacc. }
  destruct (n <? 16)%N; [exact Hacc' | now apply IH].
Qed.

Lemma hex_digits_length (k : nat) :
  forall fuel n acc,
    (16 ^ N.of_nat k <= n < 16 ^ N.of_nat (S k))%N ->
    k < fuel ->
    String.length (hex_digits fuel n acc) = S k + String.length acc.
Proof.
  induction k as [|k IH]; intros fuel n acc Hn Hfuel;
    (destruct fuel as [|fuel]; [lia|]); simpl hex_digits.
  - change (16 ^ N.of_nat 1)%N with 16%N in Hn.
    destruct (N.ltb_spec n 16); [reflexivity | lia].
  - assert (H16 : (16 <= n)%N).
    { destruct Hn as [Hlow _]. rewrite Nat2N.inj_succ, N.pow_succ_r' in Hlow.
      assert (16 ^ N.of_nat k <> 0)%N by (apply N.pow_nonzero; lia).
      lia. }
    destruct (N.ltb_spec n 16); [lia|].
    rewrite (IH fuel (n / 16)%N); [simpl; lia | | lia].
    destruct Hn as [Hlow Hhigh].
    rewrite Nat2N.inj_succ, N.pow_succ_r' in Hlow.
    rewrite (Nat2N.inj_succ (S k)), N.pow_succ_r' in Hhigh.
    split.
    + apply N.div_le_lower_bound; [lia | exact Hlow].
    + apply N.Div0.div_lt_upper_bound. exact Hhigh.
Qed.

Lemma replace_no_x (new s : string) :
  no_x s = true -> replace_from 0 "0x" new s = s.
Proof.
  induction s as [|c s IH]; intros H; [reflexivity|].
  simpl in H. apply andb_true_iff in H as [Hc Hs].
  cbn [replace_from].
  assert (Hp : String.prefix "0x" (String c s) = false).
  { destruct (String.prefix "0x" (String c s)) eqn:Hp; [|reflexivity].
    apply String.prefix_correct in Hp.
    destruct s as [|d s]; [discriminate|].
    simpl in Hp, Hs. injection Hp as _ ->. discriminate. }
  rewrite Hp. now rewrite (IH Hs).
Qed.

Lemma prefix_0x (digits : string) :
  String.prefix "0x" (String "0" (String "x" digits)) = true.
Proof. simpl. now destruct digits. Qed.

Lemma replace_hex (digits : string) :
  no_x digits = true -> replace "0x" EmptyString ("0x" +:+ digits) = digits.
Proof.
  intros H. unfold replace.
  change ("0x" +:+ digits) with (String "0" (String "x" digits)).
  cbn [replace_from]. rewrite prefix_0x.
  change (String.length "0x" - 1) with 1. cbn [replace_from].
  change (EmptyString +:+ replace_from 0 "0x" EmptyString digits)
    with (replace_from 0 "0x" EmptyString digits).
  now apply replace_no_x.
Qed.

Lemma upper_length (s : string) : String.length (upper s) = String.length s.
Proof. induction s as [|c s IH]; simpl; [reflexivity | now rewrite IH]. Qed.

Lemma join_slices_length (s : string) :
  String.length (join "-" (map (slice2 s) [0; 2; 4; 6; 8; 10]))
  = Nat.min 12 (String.length s) + 5.
Proof. do 12 (destruct s as [|? s]; [reflexivity|]). destruct s; reflexivity. Qed.

(** X24: under Python 3, where [hex] writes no [L], [get_mac] hashes the
    upper-case hexadecimal digits of the node number, without the 0x and
    without leading zeros, cut into the six
    slices at 0, 2, ..., 10 and joined with dashes.  For a node with [k+1]
    hexadecimal digits the text has [min 12 (k+1) + 5] characters: the 17
    of a MAC address only when the first of its twelve digits is not
    zero. *)
Theorem mac_text_of_node :
  forall md5 k node,
    (16 ^ N.of_nat k <= node < 16 ^ N.of_nat (S k))%N ->
    let digits := hex_digits (S (N.to_nat (N.log2 node))) node EmptyString in
    get_mac md5 node = md5 (mac_text node)
    /\ mac_text node = join "-" (map (slice2 (upper digits)) [0; 2; 4; 6; 8; 10])
    /\ String.length digits = S k
    /\ String.length (mac_text node) = Nat.min 12 (S k) + 5.
Proof.
  intros md5 k node Hn digits.
  assert (Hlen : String.length digits = S k).
  { subst digits. rewrite (hex_digits_length k); [simpl; lia | exact Hn |].
    assert (Hlog : (N.of_nat k <= N.log2 node)%N).
    { destruct Hn as [Hlow _].
      apply N.log2_le_mono in Hlow.
      assert (Hpow : (16 ^ N.of_nat k = 2 ^ (4 * N.of_nat k))%N)
        by (rewrite N.pow_mul_r; reflexivity).
      rewrite Hpow, N.log2_pow2 in Hlow by lia. lia. }
    lia. }
  assert (Htext : mac_text node
                  = join "-" (map (slice2 (upper digits)) [0; 2; 4; 6; 8; 10])).
  { unfold mac_text, hex. fold digits. rewrite replace_hex; [reflexivity|].
    subst digits. now apply hex_digits_no_x. }
  split; [reflexivity|]. split; [exact Htext|]. split; [exact Hlen|].
  now rewrite Htext, join_slices_length, upper_length, Hlen.
Qed.

Lemma mac_text_of_node_witness :
  (16 ^ N.of_nat 9 <= 0x001A2B3C4D5E < 16 ^ N.of_nat 10)%N
  /\ mac_text 0x001A2B3C4D5E = "1A-2B-3C-4D-5E-"
  /\ String.length (mac_text 0x001A2B3C4D5E) = 15.
Proof.
  assert (Hn : (16 ^ N.of_nat 9 <= 0x001A2B3C4D5E < 16 ^ N.of_nat 10)%N)
    by (vm_compute; split; [discriminate | reflexivity]).
  split; [exact Hn|]. split; [vm_compute; reflexivity|].
  destruct (mac_text_of_node (fun s => s) 9 0x001A2B3C4D5E Hn) as (_ & _ & _ & Hlen).
  exact Hlen.
Defined.

(** ** Deferred calls *)

Lemma pop_snoc {A} (l : list A) (x : A) : pop (l ++ [x]) = Some (l, x).
Proof. unfold pop. rewrite rev_app_distr. simpl. now rewrite rev_involutive. Qed.

Lemma run_deferred_plain (deferred : list Deferred) :
  forall fuel,
    Forall plain deferred ->
    length deferred < fuel ->
    run_deferred fuel deferred = (rev (map d_name deferred), Some false).
Proof.
  induction deferred as [|d before IH] using rev_ind; intros fuel Hplain Hfuel;
    (destruct fuel as [|fuel]; [lia|]); [reflexivity|].
  apply Forall_app in Hplain as [Hbefore Hd].
  apply Forall_cons in Hd as [[Hdefers Hraises] _].
  rewrite length_app in Hfuel. simpl in Hfuel.
  cbn [run_deferred]. rewrite pop_snoc, Hraises, Hdefers, app_nil_r.
  rewrite (IH fuel Hbefore) by lia.
  now rewrite map_app, rev_app_distr.
Qed.

(** X25: the calls registered in a [deferral] block run when it ends, the
    last registered first.  If the calls register nothing further and none
    raises, every one of them runs, in the reverse of the order of
    registration; if one raises, the calls registered after it have run,
    it is the last to run, and those registered before it are never
    called. *)
Theorem deferred_calls_run_in_reverse :
  forall fuel after,
    Forall plain after ->
    length after < fuel ->
    run_deferred fuel after = (rev (map d_name after), Some false)
    /\ forall before d,
         d_raises d = true ->
         run_deferred fuel (before ++ d :: after)
         = (rev (map d_name after) ++ [d_name d], Some true).
Proof.
  intros fuel after Hplain Hfuel. split; [now apply run_deferred_plain|].
  intros before d Hd. revert fuel Hfuel.
  induction after as [|x after IH] using rev_ind; intros fuel Hfuel;
    (destruct fuel as [|fuel]; [simpl in Hfuel; lia|]).
  - cbn [run_deferred]. now rewrite pop_snoc, Hd.
  - apply Forall_app in Hplain as [Hafter Hx].
    apply Forall_cons in Hx as [[Hdefers Hraises] _].
    rewrite length_app in Hfuel. simpl in Hfuel.
    cbn [run_deferred].
    replace (before ++ d :: after ++ [x]) with ((before ++ d :: after) ++ [x])
      by (now rewrite <- app_assoc).
    rewrite pop_snoc, Hraises, Hdefers, app_nil_r.
    rewrite (IH Hafter fuel) by lia.
    now rewrite map_app, rev_app_distr.
Qed.

Lemma deferred_calls_run_in_reverse_witness :
  let ok := fun name => mkDeferred name [] false in
  let bad := mkDeferred "restore" [] true in
  (Forall plain [ok "a"; ok "b"] /\ Forall plain [ok "c"])
  /\ run_deferred 3 [ok "a"; ok "b"] = (["b"; "a"], Some false)
  /\ run_deferred 2 ([ok "a"; ok "b"] ++ bad :: [ok "c"]) = (["c"; "restore"], Some true).
Proof.
  intros ok bad.
  assert (H2 : Forall plain [ok "a"; ok "b"]) by (repeat constructor).
  assert (H1 : Forall plain [ok "c"]) by (repeat constructor).
  split; [now split|]. split.
  - destruct (deferred_calls_run_in_reverse 3 [ok "a"; ok "b"] H2) as [Hall _];
      [simpl; lia | exact Hall].
  - destruct (deferred_calls_run_in_reverse 2 [ok "c"] H1) as [_ Hbad];
      [simpl; lia|]. now apply (Hbad [ok "a"; ok "b"] bad).
Defined.

(** ** Writing then reading the spool *)

(** X26: what [_write_to_local] appends is read back by the replay as one
    line of its own: on a spool of whole lines, after an append that did
    not fail, the lines [splitlines] gives are the lines there were,
    followed by the serialised record, provided its text holds no line
    break (as the output of [json.dumps] does); and that line loads as
    whatever [json.loads] makes of the serialised record. *)
Theorem spooled_record_is_read_back :
  forall (dumps : Json -> string) (loads : string -> option Json) append_fails data w w',
    closed_text (text (spool w)) = true ->
    _write_to_local dumps append_fails data w = (PyNone, w') ->
    splitlines (dumps data +:+ nl) = [dumps data] ->
    splitlines (text (spool w')) = splitlines (text (spool w)) ++ [dumps data]
    /\ last (map loads (splitlines (text (spool w')))) = Some (loads (dumps data))
    /\ closed_text (text (spool w')) = true.
Proof.
  intros dumps loads append_fails data w w' Hclosed Hwrite Hline.
  destruct (write_done _ _ _ _ _ Hwrite) as (_ & -> & _). simpl.
  assert (Hlines : splitlines (text (spool w) +:+ dumps data +:+ nl)
                   = splitlines (text (spool w)) ++ [dumps data])
    by (now rewrite splitlines_closed, Hline).
  split; [exact Hlines|]. split; [|apply closed_text_line].
  rewrite Hlines, map_app. simpl. apply last_snoc.
Qed.

Lemma spooled_record_is_read_back_witness :
  let w := fresh (Some (MiniJson.dumps (metric "m0") +:+ nl)) in
  let w' := snd (_write_to_local MiniJson.dumps no_fault (event "e1") w) in
  (closed_text (text (spool w)) = true
   /\ _write_to_local MiniJson.dumps no_fault (event "e1") w = (PyNone, w')
   /\ splitlines (MiniJson.dumps (event "e1") +:+ nl) = [MiniJson.dumps (event "e1")])
  /\ splitlines (text (spool w'))
     = [MiniJson.dumps (metric "m0"); MiniJson.dumps (event "e1")]
  /\ last (map MiniJson.loads (splitlines (text (spool w')))) = Some (Some (event "e1")).
Proof.
  intros w w'.
  assert (H1 : closed_text (text (spool w)) = true) by (vm_compute; reflexivity).
  assert (H2 : _write_to_local MiniJson.dumps no_fault (event "e1") w = (PyNone, w'))
    by reflexivity.
  assert (H3 : splitlines (MiniJson.dumps (event "e1") +:+ nl)
               = [MiniJson.dumps (event "e1")]) by (vm_compute; reflexivity).
  split; [now repeat split|].
  destruct (spooled_record_is_read_back MiniJson.dumps MiniJson.loads no_fault (event "e1")
              w w' H1 H2 H3) as (Hlines & Hlast & _).
  split.
  - rewrite Hlines. vm_compute. reflexivity.
  - rewrite Hlast. vm_compute. reflexivity.
Defined.
